(** * BMSview chart-control patch scripts

    A shallow embedding of the three maintenance scripts
    [update_chart_controls.py], [fix_chart_controls.py] and
    [fix_chart_final.py].  Each script opens
    [components/HistoricalChart.tsx] in text mode, transforms the text
    in memory and (unless it stops first) writes it back.

    Python [str] values are lists of characters; the file system is a
    finite map from paths to file texts; a script is a computation in a
    small monad that threads the file system and standard output and
    may stop with [exit(n)] or with an uncaught exception.

    The text of a file is the [str] that a text-mode [read] returns and
    a text-mode [write] takes: decoding and newline translation are not
    modelled.  Characters are the bytes of the UTF-8 form; every pattern
    the scripts search for is ASCII. *)

From Stdlib Require Import Ascii String DecimalString ZArith.
From stdpp Require Import base list strings gmap.

Local Open Scope list_scope.

(** ** Python strings *)

Abbreviation str := (list ascii).

Definition LF : ascii := ascii_of_nat 10.
Definition DQ : ascii := ascii_of_nat 34.
Definition BSL : ascii := ascii_of_nat 92.

(** [py] reads the body of a Python string literal: the escapes [\n] and
    [\'] used by the scripts are decoded, and [\q] is written here for
    the double quote character.  Line breaks inside a literal are kept
    as they are (triple-quoted blocks). *)
Fixpoint unescape (s : str) : str :=
  match s with
  | [] => []
  | c :: r =>
      if Ascii.eqb c BSL then
        match r with
        | e :: r' =>
            if Ascii.eqb e "n" then LF :: unescape r'
            else if Ascii.eqb e "'" then "'"%char :: unescape r'
            else if Ascii.eqb e "q" then DQ :: unescape r'
            else c :: unescape r
        | [] => [c]
        end
      else c :: unescape r
  end.

Definition py (s : string) : str := unescape (list_ascii_of_string s).

(** [s.startswith(p)] *)
Fixpoint startswith (p s : str) : bool :=
  match p, s with
  | [], _ => true
  | _ :: _, [] => false
  | a :: p', b :: s' => Ascii.eqb a b && startswith p' s'
  end.

(** [p in s] for strings: [p] occurs as a contiguous block of [s]. *)
Fixpoint contains (p s : str) : bool :=
  startswith p s ||
  match s with
  | [] => false
  | _ :: s' => contains p s'
  end.

(** [s.replace(old, new)]: every occurrence of [old], found scanning
    from the left without overlap, is replaced by [new].  [skip] counts
    the characters of the current occurrence that remain to be passed
    over.  An empty [old] matches before every character and at the
    end. *)
Fixpoint replace_scan (old new : str) (skip : nat) (s : str) : str :=
  match s with
  | [] => []
  | c :: s' =>
      match skip with
      | S k => replace_scan old new k s'
      | O =>
          if startswith old s
          then new ++ replace_scan old new (length old - 1) s'
          else c :: replace_scan old new 0 s'
      end
  end.

Definition replace (old new s : str) : str :=
  match old with
  | [] => new ++ flat_map (fun c => c :: new) s
  | _ :: _ => replace_scan old new 0 s
  end.

(** Specification-level notion: [p] is a contiguous block of [s]. *)
Definition substring (p s : str) : Prop :=
  exists a b, s = a ++ p ++ b.

Example replace_ex1 :
  replace (py "ab") (py "X") (py "abcabab.") = py "XcXX.".
Proof. reflexivity. Qed.

Example replace_ex2 :
  replace (py "aa") (py "b") (py "aaa") = py "ba".
Proof. reflexivity. Qed.

Example replace_ex3 :
  replace (py "") (py "-") (py "abc") = py "-a-b-c-".
Proof. reflexivity. Qed.

Example py_ex : py "a\nb\'\q" = ["a"%char; LF; "b"%char; "'"%char; DQ].
Proof. reflexivity. Qed.

(** ** Facts about matching and replacement *)

Section StringFacts.
Implicit Types p s old new a b r : str.

Lemma startswith_spec p s :
  startswith p s = true <-> exists r, s = p ++ r.
Proof.
  revert s; induction p as [|x p IH]; intros s; simpl.
  - split; [intros _; by exists s | done].
  - destruct s as [|y s].
    + split; [done | intros [r Hr]; discriminate].
    + rewrite andb_true_iff, Ascii.eqb_eq, IH. split.
      * intros [-> [r ->]]. by exists r.
      * intros [r Hr]. injection Hr as -> ->. eauto.
Qed.

Lemma startswith_app p r : startswith p (p ++ r) = true.
Proof. apply startswith_spec. by exists r. Qed.

Lemma contains_unfold p s :
  contains p s =
  startswith p s || match s with [] => false | _ :: s' => contains p s' end.
Proof. by destruct s. Qed.

Lemma contains_spec p s : contains p s = true <-> substring p s.
Proof.
  split.
  - induction s as [|c s IH]; rewrite contains_unfold, orb_true_iff.
    + intros [H|H]; [|done].
      apply startswith_spec in H as [r ->]. by exists [], r.
    + intros [H|H].
      * apply startswith_spec in H as [r ->]. by exists [], r.
      * destruct (IH H) as (a & b & ->). by exists (c :: a), b.
  - intros (a & b & ->). induction a as [|c a IH].
    + rewrite contains_unfold. simpl. by rewrite startswith_app.
    + change ((c :: a) ++ p ++ b) with (c :: (a ++ p ++ b)).
      rewrite contains_unfold, IH. apply orb_true_r.
Qed.

Lemma contains_false p s : contains p s = false <-> ~ substring p s.
Proof.
  rewrite <- contains_spec. destruct (contains p s); split; try done.
Qed.

Lemma contains_cons_false p c s :
  contains p (c :: s) = false -> startswith p (c :: s) = false /\ contains p s = false.
Proof. rewrite contains_unfold. apply orb_false_elim. Qed.

Lemma replace_scan_skip old new k s :
  replace_scan old new k s = replace_scan old new 0 (drop k s).
Proof.
  revert k; induction s as [|c s IH]; intros [|k]; try done.
  simpl. apply IH.
Qed.

Lemma replace_scan_miss old new c s :
  startswith old (c :: s) = false ->
  replace_scan old new 0 (c :: s) = c :: replace_scan old new 0 s.
Proof. intros H. cbn [replace_scan]. by rewrite H. Qed.

Lemma replace_scan_hit old new r :
  old <> [] ->
  replace_scan old new 0 (old ++ r) = new ++ replace_scan old new 0 r.
Proof.
  destruct old as [|o old]; [done|]. intros _.
  change ((o :: old) ++ r) with (o :: (old ++ r)).
  cbn [replace_scan].
  change (o :: (old ++ r)) with ((o :: old) ++ r).
  rewrite startswith_app, replace_scan_skip. f_equal. f_equal.
  cbn [length]. rewrite Nat.sub_succ, Nat.sub_0_r.
  by rewrite drop_app_length.
Qed.

Lemma replace_scan_absent old new s :
  contains old s = false -> replace_scan old new 0 s = s.
Proof.
  induction s as [|c s IH]; [done|].
  intros [H1 H2]%contains_cons_false.
  rewrite replace_scan_miss by done. f_equal. by apply IH.
Qed.

(** When the pattern is not in the text, [replace] returns the text. *)
Lemma replace_absent old new s :
  contains old s = false -> replace old new s = s.
Proof.
  destruct old as [|o old].
  - by rewrite contains_unfold.
  - apply replace_scan_absent.
Qed.

Lemma replace_twice_absent (o1 n1 o2 n2 : str) s :
  contains o1 s = false -> contains o2 s = false ->
  replace o2 n2 (replace o1 n1 s) = s.
Proof.
  intros H1 H2. rewrite (replace_absent o1 n1 s H1).
  by apply replace_absent.
Qed.

(** The scan copies the text up to the leftmost occurrence, emits
    [new], and resumes right after the occurrence. *)
Lemma replace_scan_first old new a b :
  old <> [] ->
  (forall a' b', a ++ old ++ b = a' ++ old ++ b' -> length a <= length a') ->
  replace_scan old new 0 (a ++ old ++ b) = a ++ new ++ replace_scan old new 0 b.
Proof.
  intros Hne. induction a as [|c a IH]; intros Hfirst.
  - by apply (replace_scan_hit old new b).
  - change ((c :: a) ++ old ++ b) with (c :: (a ++ old ++ b)).
    rewrite replace_scan_miss.
    + simpl. f_equal. apply IH. intros a' b' E.
      specialize (Hfirst (c :: a') b'). simpl in Hfirst.
      rewrite E in Hfirst. specialize (Hfirst eq_refl). lia.
    + destruct (startswith old (c :: a ++ old ++ b)) eqn:E; [|done].
      apply startswith_spec in E as [r Hr].
      specialize (Hfirst [] r Hr). simpl in Hfirst. lia.
Qed.

Lemma replace_first old new a b :
  old <> [] ->
  (forall a' b', a ++ old ++ b = a' ++ old ++ b' -> length a <= length a') ->
  replace old new (a ++ old ++ b) = a ++ new ++ replace old new b.
Proof.
  intros Hne Hfirst. destruct old as [|o old]; [done|].
  by apply replace_scan_first.
Qed.

Lemma replace_once old new a b :
  (forall a' b', a ++ old ++ b = a' ++ old ++ b' -> a' = a) ->
  replace old new (a ++ old ++ b) = a ++ new ++ b.
Proof.
  intros Huniq. destruct old as [|o old].
  - assert (a = []) as -> by (symmetry; apply (Huniq [] (a ++ b)); done).
    assert (b = []) as ->.
    { specialize (Huniq b []). simpl in Huniq.
      rewrite app_nil_r in Huniq. by apply Huniq. }
    done.
  - rewrite replace_first; [|done|].
    + f_equal. f_equal. apply replace_absent, contains_false.
      intros (x & y & ->).
      specialize (Huniq (a ++ (o :: old) ++ x) y).
      rewrite <- !app_assoc in Huniq. specialize (Huniq eq_refl).
      apply (f_equal length) in Huniq. rewrite !length_app in Huniq.
      simpl in Huniq. lia.
    + intros a' b' E. by rewrite (Huniq a' b' E).
Qed.
End StringFacts.

(** ** Lines of a text file *)

(** [f.readlines()]: the text cut after every line feed, terminators
    kept; a last line without terminator is kept as it is. *)
Fixpoint readlines (s : str) : list str :=
  match s with
  | [] => []
  | c :: s' =>
      if Ascii.eqb c LF then [c] :: readlines s'
      else match readlines s' with
           | [] => [[c]]
           | l :: ls => (c :: l) :: ls
           end
  end.

Example readlines_ex1 :
  readlines (py "a\nb\n\nc") = [py "a\n"; py "b\n"; py "\n"; py "c"].
Proof. reflexivity. Qed.

Example readlines_ex2 : readlines (py "a\n") = [py "a\n"].
Proof. reflexivity. Qed.

(** [f.writelines(lines)] writes the items one after the other. *)
Definition writelines (lines : list str) : str := concat lines.

(** [lines.insert(idx, x)] for [idx >= 0]: past the end it appends. *)
Definition py_insert (idx : nat) (x : str) (lines : list str) : list str :=
  take idx lines ++ x :: drop idx lines.

Example py_insert_ex1 :
  py_insert 1 (py "x") [py "a"; py "b"] = [py "a"; py "x"; py "b"].
Proof. reflexivity. Qed.

Example py_insert_ex2 :
  py_insert 5 (py "x") [py "a"; py "b"] = [py "a"; py "b"; py "x"].
Proof. reflexivity. Qed.

(** [str(n)] as used by the f-strings. *)
Definition str_of_nat (n : nat) : str :=
  list_ascii_of_string (NilEmpty.string_of_uint (Nat.to_uint n)).

(** ** The world of a script run *)

Record World := mkWorld {
  fs : gmap string str;      (* path -> text of the file *)
  stdout : list str          (* lines printed so far *)
}.

Inductive Exn := IndexError | FileNotFoundError.

(** How a computation stops: normally, by [exit(code)], or by an
    exception nobody catches. *)
Inductive Outcome (A : Type) :=
| Done (a : A)
| Exit (code : Z)
| Raised (e : Exn).
Arguments Done {A} a.
Arguments Exit {A} code.
Arguments Raised {A} e.

Definition Py (A : Type) : Type := World -> Outcome A * World.

Definition ret {A} (a : A) : Py A := fun w => (Done a, w).

Definition bind {A B} (m : Py A) (k : A -> Py B) : Py B :=
  fun w =>
    match m w with
    | (Done a, w') => k a w'
    | (Exit c, w') => (Exit c, w')
    | (Raised e, w') => (Raised e, w')
    end.

Notation "x <- m ;; k" := (bind m (fun x => k))
  (at level 100, m at next level, right associativity).
Notation "m ;; k" := (bind m (fun _ => k))
  (at level 100, right associativity).

Definition exit {A} (code : Z) : Py A := fun w => (Exit code, w).
Definition raise {A} (e : Exn) : Py A := fun w => (Raised e, w).

Definition print (msg : str) : Py unit :=
  fun w => (Done tt, mkWorld (fs w) (stdout w ++ [msg])).

(** [open(path, 'r').read()] *)
Definition read_text (path : string) : Py str :=
  fun w =>
    match fs w !! path with
    | Some text => (Done text, w)
    | None => (Raised FileNotFoundError, w)
    end.

(** [open(path, 'w').write(text)]: the file is replaced as a whole. *)
Definition write_text (path : string) (text : str) : Py unit :=
  fun w => (Done tt, mkWorld (<[path := text]> (fs w)) (stdout w)).

(** [xs[i]] with [i >= 0] *)
Definition index {A} (xs : list A) (i : nat) : Py A :=
  match xs !! i with
  | Some x => ret x
  | None => raise IndexError
  end.

(** Exit status the operating system sees. *)
Definition status {A} (o : Outcome A) : Z :=
  match o with
  | Done _ => 0
  | Exit c => c
  | Raised _ => 1
  end.

Definition chart_path : string := "components/HistoricalChart.tsx".

(** The literals of the scripts are kept in evaluated form, so that two
    of them are compared character by character. *)

(** ** update_chart_controls.py *)

Module UpdateChartControls.

Definition old_section : str := Eval vm_compute in py
"               <div className=\qflex justify-end items-center gap-4 mt-4\q>
                    {hasChartData && <button onClick={onResetView} className=\qtext-sm text-secondary hover:underline\q>Reset View</button>}
                    {chartView === 'timeline' && (
                       <div className=\qrelative\q ref={metricConfigRef}>".

Definition new_section : str := Eval vm_compute in py
"               <div className=\qflex justify-end items-center gap-4 mt-4\q>
                    {hasChartData && <button onClick={onResetView} className=\qtext-sm text-secondary hover:underline\q>Reset View</button>}
                    {chartView === 'timeline' && (
                       <>
                           {/* Data Averaging Controls */}
                           <div className=\qflex items-center gap-3 border-r border-gray-600 pr-4\q>
                               <label className=\qflex items-center space-x-2 text-sm text-gray-300 cursor-pointer\q>
                                   <input 
                                       type=\qcheckbox\q 
                                       checked={averagingEnabled} 
                                       onChange={(e) => {
                                           setAveragingEnabled(e.target.checked);
                                           if (!e.target.checked) setManualBucketSize(null);
                                       }}
                                       className=\qform-checkbox h-4 w-4 bg-gray-700 border-gray-600 text-secondary focus:ring-secondary\q
                                   />
                                   <span>Data Averaging</span>
                               </label>
                               {averagingEnabled && (
                                   <select 
                                       value={manualBucketSize || 'auto'} 
                                       onChange={(e) => setManualBucketSize(e.target.value === 'auto' ? null : e.target.value)}
                                       className=\qbg-gray-700 border border-gray-600 rounded-md px-2 py-1 text-sm text-white focus:ring-secondary focus:border-secondary\q
                                   >
                                       <option value=\qauto\q>Auto (Zoom-based)</option>
                                       <option value=\qraw\q>No Averaging</option>
                                       <option value=\q5\q>5 Minutes</option>
                                       <option value=\q15\q>15 Minutes</option>
                                       <option value=\q60\q>1 Hour</option>
                                       <option value=\q240\q>4 Hours</option>
                                       <option value=\q1440\q>1 Day</option>
                                   </select>
                               )}
                           </div>
                           <div className=\qrelative\q ref={metricConfigRef}>".

Definition old_close : str := Eval vm_compute in py
"                       </div>
                    )}
                    <button onClick={onGenerate}".

Definition new_close : str := Eval vm_compute in py
"                           </div>
                       </>
                    )}
                    <button onClick={onGenerate}".

Definition div_start : str :=
  Eval vm_compute in py "className=\qflex justify-end items-center gap-4 mt-4\q".

Definition msg_section_replaced : str := Eval vm_compute in py "✓ Found and replaced the section".
Definition msg_section_not_found : str :=
  Eval vm_compute in py "✗ Section not found - checking for variations".
Definition msg_div_found : str := Eval vm_compute in py "✓ Found the div, but exact match failed".
Definition msg_div_missing : str := Eval vm_compute in py "✗ Could not find the div at all".
Definition msg_close_replaced : str :=
  Eval vm_compute in py "✓ Found and replaced the closing section".
Definition msg_close_not_found : str := Eval vm_compute in py "✗ Closing section not found".
Definition msg_success : str := Eval vm_compute in py "✓ File updated successfully!".

Definition main : Py unit :=
  content <- read_text chart_path ;;
  content <-
    (if contains old_section content then
       let content := replace old_section new_section content in
       print msg_section_replaced ;;
       ret content
     else
       print msg_section_not_found ;;
       (if contains div_start content
        then print msg_div_found
        else print msg_div_missing) ;;
       exit 1) ;;
  content <-
    (if contains old_close content then
       let content := replace old_close new_close content in
       print msg_close_replaced ;;
       ret content
     else
       print msg_close_not_found ;;
       exit 1) ;;
  write_text chart_path content ;;
  print msg_success.

End UpdateChartControls.

(** ** fix_chart_final.py *)

Module FixChartFinal.

Definition misplaced_close_old : str := Eval vm_compute in py
"                                                           </div>
                          </>
                                                       )}".

Definition misplaced_close_new : str := Eval vm_compute in py
"                                                           </div>
                                                       )}".

Definition final_close_old : str := Eval vm_compute in py
"                               </div>
                           )}
                       </div>
                    )}
                    <button onClick={onGenerate}".

Definition final_close_new : str := Eval vm_compute in py
"                               </div>
                           )}
                       </div>
                       </>
                    )}
                    <button onClick={onGenerate}".

Definition msg_success : str := Eval vm_compute in py "✓ Fixed fragment placement!".

Definition main : Py unit :=
  content <- read_text chart_path ;;
  let content := replace misplaced_close_old misplaced_close_new content in
  let content := replace final_close_old final_close_new content in
  write_text chart_path content ;;
  print msg_success.

End FixChartFinal.

(** ** fix_chart_controls.py *)

Module FixChartControls.

Definition marker : str := Eval vm_compute in py "chartView === 'timeline' &&".
Definition div_marker : str := Eval vm_compute in py "<div className=\qrelative\q".

(** The [enumerate] loop that looks for the target line: the first
    index past 200 whose line contains the marker. *)
Fixpoint find_target_from (i : nat) (lines : list str) : option nat :=
  match lines with
  | [] => None
  | line :: rest =>
      if contains marker line && (200 <? i) then Some i
      else find_target_from (S i) rest
  end.

Definition find_target (lines : list str) : option nat :=
  find_target_from 0 lines.

Definition indent : str := Eval vm_compute in py "                       ".

Definition new_lines (target_line : str) : list str := [
    replace (py "(") (py "(\n" ++ indent ++ py "<>") target_line;
    indent ++ py "    {/* Data Averaging Controls */}\n";
    indent ++ py "    <div className=\qflex items-center gap-3 border-r border-gray-600 pr-4\q>\n";
    indent ++ py "        <label className=\qflex items-center space-x-2 text-sm text-gray-300 cursor-pointer\q>\n";
    indent ++ py "            <input \n";
    indent ++ py "                type=\qcheckbox\q \n";
    indent ++ py "                checked={averagingEnabled} \n";
    indent ++ py "                onChange={(e) => {\n";
    indent ++ py "                    setAveragingEnabled(e.target.checked);\n";
    indent ++ py "                    if (!e.target.checked) setManualBucketSize(null);\n";
    indent ++ py "                }}\n";
    indent ++ py "                className=\qform-checkbox h-4 w-4 bg-gray-700 border-gray-600 text-secondary focus:ring-secondary\q\n";
    indent ++ py "            />\n";
    indent ++ py "            <span>Data Averaging</span>\n";
    indent ++ py "        </label>\n";
    indent ++ py "        {averagingEnabled && (\n";
    indent ++ py "            <select \n";
    indent ++ py "                value={manualBucketSize || \'auto\'} \n";
    indent ++ py "                onChange={(e) => setManualBucketSize(e.target.value === \'auto\' ? null : e.target.value)}\n";
    indent ++ py "                className=\qbg-gray-700 border border-gray-600 rounded-md px-2 py-1 text-sm text-white focus:ring-secondary focus:border-secondary\q\n";
    indent ++ py "            >\n";
    indent ++ py "                <option value=\qauto\q>Auto (Zoom-based)</option>\n";
    indent ++ py "                <option value=\qraw\q>No Averaging</option>\n";
    indent ++ py "                <option value=\q5\q>5 Minutes</option>\n";
    indent ++ py "                <option value=\q15\q>15 Minutes</option>\n";
    indent ++ py "                <option value=\q60\q>1 Hour</option>\n";
    indent ++ py "                <option value=\q240\q>4 Hours</option>\n";
    indent ++ py "                <option value=\q1440\q>1 Day</option>\n";
    indent ++ py "            </select>\n";
    indent ++ py "        )}\n";
    indent ++ py "    </div>\n"
  ].

(** [for i, new_line in enumerate(new_lines[1:], 1):
       lines.insert(target_line_idx + i, new_line)] *)
Fixpoint insert_each (at_idx : nat) (news : list str) (lines : list str)
  : list str :=
  match news with
  | [] => lines
  | new_line :: rest => insert_each (S at_idx) rest (py_insert at_idx new_line lines)
  end.

(** Replace the target line by [new_lines[0]] and insert the others
    after it. *)
Definition insert_controls (target_line_idx : nat) (lines : list str)
  : Py (list str) :=
  target_line <- index lines target_line_idx ;;
  let new_lines := new_lines target_line in
  let lines := <[target_line_idx := hd [] new_lines]> lines in
  ret (insert_each (target_line_idx + 1) (tl new_lines) lines).

Definition fragment_close : str := Eval vm_compute in py "                       </>\n".

(** The test of the fix-up loop, with Python's left-to-right [and]:
    an index is only read when everything before it held. *)
Definition closing_test (lines : list str) (i : nat) : Py bool :=
  li <- index lines i ;;
  if negb (contains (py "</div>") li) then ret false else
  if negb (i + 1 <? length lines) then ret false else
  li1 <- index lines (i + 1) ;;
  if negb (contains (py ")}\n") li1) then ret false else
  li2 <- index lines (i + 2) ;;
  ret (negb (contains (py "chartView") li2)).

Definition msg_updated (i : nat) : str :=
  py "Updated closing at line " ++ str_of_nat (i + 2).

(** The body of [for i in range(...)], with [break] at the first hit. *)
Fixpoint fixup_loop (idxs : list nat) (lines : list str) : Py (list str) :=
  match idxs with
  | [] => ret lines
  | i :: rest =>
      hit <- closing_test lines i ;;
      if hit then
        li1 <- index lines (i + 1) ;;
        let lines := <[i + 1 := fragment_close ++ li1]> lines in
        print (msg_updated i) ;;
        ret lines
      else fixup_loop rest lines
  end.

(** [range(lo, hi)] *)
Definition range (lo hi : nat) : list nat := seq lo (hi - lo).

Definition fixup (target_line_idx : nat) (lines : list str) : Py (list str) :=
  fixup_loop
    (range (target_line_idx + 50)
           (Nat.min (target_line_idx + 100) (length lines - 1)))
    lines.

Definition msg_no_target : str := Eval vm_compute in py "Could not find target line".
Definition msg_found (target_line_idx : nat) : str :=
  py "Found target at line " ++ str_of_nat (target_line_idx + 1).
Definition msg_unexpected : str := Eval vm_compute in py "Unexpected structure".
Definition msg_success : str := Eval vm_compute in py "✓ Chart controls updated successfully!".

Definition main : Py unit :=
  content <- read_text chart_path ;;
  let lines := readlines content in
  target_line_idx <-
    match find_target lines with
    | None => print msg_no_target ;; exit 1
    | Some i => ret i
    end ;;
  print (msg_found target_line_idx) ;;
  next_line <- index lines (target_line_idx + 1) ;;
  (if negb (contains div_marker next_line)
   then print msg_unexpected ;; exit 1
   else ret tt) ;;
  lines <- insert_controls target_line_idx lines ;;
  lines <- fixup target_line_idx lines ;;
  write_text chart_path (writelines lines) ;;
  print msg_success.

End FixChartControls.

(** ** Running the monad *)

Lemma bind_done {A B} (m : Py A) (k : A -> Py B) w a w' :
  m w = (Done a, w') -> bind m k w = k a w'.
Proof. unfold bind. by intros ->. Qed.

Lemma bind_raised {A B} (m : Py A) (k : A -> Py B) w e w' :
  m w = (Raised e, w') -> bind m k w = (Raised e, w').
Proof. unfold bind. by intros ->. Qed.

Lemma read_text_some w text :
  fs w !! chart_path = Some text -> read_text chart_path w = (Done text, w).
Proof. unfold read_text. by intros ->. Qed.

Lemma index_some {A} (xs : list A) i x w :
  xs !! i = Some x -> index xs i w = (Done x, w).
Proof. unfold index. by intros ->. Qed.

Lemma index_none {A} (xs : list A) i w :
  xs !! i = None -> index xs i w = (Raised IndexError, w).
Proof. unfold index. by intros ->. Qed.

(** Unfold the monad operations of a script applied to a world. *)
Ltac run_py :=
  cbv beta iota delta [bind ret exit raise print write_text negb];
  cbn [fs stdout]; rewrite <- ?app_assoc; cbn [app].

(** ** update_chart_controls.py: aborts *)

Section UpdateRuns.
Import UpdateChartControls.
Variables (w : World) (content : str).
Hypothesis Hread : fs w !! chart_path = Some content.

Lemma update_section_absent :
  contains old_section content = false ->
  main w =
    (Exit 1,
     mkWorld (fs w)
       (stdout w ++
        [msg_section_not_found;
         if contains div_start content then msg_div_found else msg_div_missing])).
Proof.
  intros H. unfold main.
  rewrite (bind_done _ _ _ _ _ (read_text_some _ _ Hread)), H.
  destruct (contains div_start content); run_py; reflexivity.
Qed.

Lemma update_close_absent :
  contains old_section content = true ->
  contains old_close (replace old_section new_section content) = false ->
  main w =
    (Exit 1,
     mkWorld (fs w) (stdout w ++ [msg_section_replaced; msg_close_not_found])).
Proof.
  intros H1 H2. unfold main.
  rewrite (bind_done _ _ _ _ _ (read_text_some _ _ Hread)), H1.
  run_py. rewrite H2. run_py. reflexivity.
Qed.

Lemma update_success :
  contains old_section content = true ->
  contains old_close (replace old_section new_section content) = true ->
  main w =
    (Done tt,
     mkWorld
       (<[chart_path :=
            replace old_close new_close
              (replace old_section new_section content)]> (fs w))
       (stdout w ++ [msg_section_replaced; msg_close_replaced; msg_success])).
Proof.
  intros H1 H2. unfold main.
  rewrite (bind_done _ _ _ _ _ (read_text_some _ _ Hread)), H1.
  run_py. rewrite H2. run_py. reflexivity.
Qed.
End UpdateRuns.

(** ** fix_chart_final.py: one run *)

Lemma fix_chart_final_run (w : World) (content : str) :
  fs w !! chart_path = Some content ->
  FixChartFinal.main w =
    (Done tt,
     mkWorld
       (<[chart_path :=
            replace FixChartFinal.final_close_old FixChartFinal.final_close_new
              (replace FixChartFinal.misplaced_close_old
                 FixChartFinal.misplaced_close_new content)]> (fs w))
       (stdout w ++ [FixChartFinal.msg_success])).
Proof.
  intros Hread. unfold FixChartFinal.main.
  rewrite (bind_done _ _ _ _ _ (read_text_some _ _ Hread)).
  run_py. reflexivity.
Qed.

(** ** Lines *)

Lemma writelines_readlines (s : str) : writelines (readlines s) = s.
Proof.
  unfold writelines. induction s as [|c s IH]; [done|].
  cbn [readlines]. destruct (Ascii.eqb c LF).
  - cbn [concat app]. by rewrite IH.
  - destruct (readlines s) as [|l ls]; cbn [concat app] in *.
    + by rewrite <- IH.
    + by rewrite <- IH.
Qed.

Lemma py_insert_length idx x lines :
  length (py_insert idx x lines) = S (length lines).
Proof.
  unfold py_insert. rewrite length_app. cbn [length].
  rewrite length_take, length_drop. lia.
Qed.

Section FixChartControlsFacts.
Import FixChartControls.

(** *** The target scan *)

Definition target_hit (i : nat) (line : str) : bool :=
  contains marker line && (200 <? i).

Lemma find_target_from_first k lines :
  match find_target_from k lines with
  | Some i =>
      exists n l, i = k + n /\ lines !! n = Some l /\ target_hit i l = true /\
        forall m l', m < n -> lines !! m = Some l' -> target_hit (k + m) l' = false
  | None =>
      forall m l', lines !! m = Some l' -> target_hit (k + m) l' = false
  end.
Proof.
  revert k. induction lines as [|line rest IH]; intros k; cbn [find_target_from].
  - intros m l'. by rewrite lookup_nil.
  - fold (target_hit k line). destruct (target_hit k line) eqn:Hk.
    + exists 0, line. rewrite Nat.add_0_r. repeat split; [done|].
      intros m l' Hm. lia.
    + specialize (IH (S k)). destruct (find_target_from (S k) rest) as [i|].
      * destruct IH as (n & l & -> & Hn & Hhit & Hbefore).
        exists (S n), l. repeat split; [lia|done| |].
        { by replace (k + S n) with (S k + n) by lia. }
        intros [|m] l' Hm Hl'.
        { cbn in Hl'. injection Hl' as <-. by rewrite Nat.add_0_r. }
        replace (k + S m) with (S k + m) by lia.
        apply Hbefore; [lia|done].
      * intros [|m] l' Hl'.
        { cbn in Hl'. injection Hl' as <-. by rewrite Nat.add_0_r. }
        replace (k + S m) with (S k + m) by lia. by apply IH.
Qed.

Lemma target_hit_true i l :
  target_hit i l = true <-> substring marker l /\ 200 < i.
Proof.
  unfold target_hit.
  by rewrite andb_true_iff, contains_spec, Nat.ltb_lt.
Qed.

Lemma target_hit_false i l :
  target_hit i l = false <-> ~ (substring marker l /\ 200 < i).
Proof.
  rewrite <- target_hit_true. by destruct (target_hit i l).
Qed.

(** [i] is the first line past index 200 that contains the marker. *)
Definition first_target (lines : list str) (i : nat) : Prop :=
  200 < i /\
  (exists l, lines !! i = Some l /\ substring marker l) /\
  forall j l, j < i -> 200 < j -> lines !! j = Some l -> ~ substring marker l.

Definition no_target (lines : list str) : Prop :=
  forall j l, 200 < j -> lines !! j = Some l -> ~ substring marker l.

Lemma find_target_Some lines i :
  find_target lines = Some i <-> first_target lines i.
Proof.
  unfold find_target, first_target.
  pose proof (find_target_from_first 0 lines) as H. cbn [Nat.add] in H.
  split.
  - intros E. rewrite E in H.
    destruct H as (n & l & -> & Hn & [Hl Hi]%target_hit_true & Hbefore).
    repeat split; [done|by exists l|].
    intros j l' Hj Hj' Hl' Hsub.
    specialize (Hbefore j l' Hj Hl'). apply target_hit_false in Hbefore.
    by apply Hbefore.
  - intros (Hi & (l & Hl & Hsub) & Hbefore).
    destruct (find_target_from 0 lines) as [i'|].
    + destruct H as (n & l' & -> & Hn & [Hl' Hi']%target_hit_true & Hb').
      f_equal. destruct (Nat.lt_total n i) as [Hlt|[->|Hgt]]; [|done|].
      * by destruct (Hbefore n l' Hlt Hi' Hn).
      * specialize (Hb' i l Hgt Hl). apply target_hit_false in Hb'.
        by destruct Hb'.
    + specialize (H i l Hl). apply target_hit_false in H. by destruct H.
Qed.

Lemma find_target_None lines :
  find_target lines = None <-> no_target lines.
Proof.
  unfold find_target, no_target.
  pose proof (find_target_from_first 0 lines) as H. cbn [Nat.add] in H.
  split.
  - intros E. rewrite E in H. intros j l Hj Hl Hsub.
    specialize (H j l Hl). apply target_hit_false in H. by apply H.
  - intros Hno. destruct (find_target_from 0 lines) as [i|]; [|done].
    destruct H as (n & l & -> & Hn & [Hl Hi]%target_hit_true & _).
    by destruct (Hno n l Hi Hn).
Qed.

(** *** Inserting the controls *)

Lemma insert_each_app at_idx news lines :
  at_idx <= length lines ->
  insert_each at_idx news lines =
    take at_idx lines ++ news ++ drop at_idx lines.
Proof.
  revert at_idx lines. induction news as [|x news IH]; intros at_idx lines Hle.
  - cbn. by rewrite take_drop.
  - cbn [insert_each]. rewrite IH by (rewrite py_insert_length; lia).
    unfold py_insert.
    assert (length (take at_idx lines) = at_idx) as Hlen
      by (rewrite length_take; lia).
    replace (S at_idx) with (at_idx + 1) by lia.
    rewrite take_app_add', drop_app_add' by done.
    cbn [take drop]. by rewrite <- !app_assoc.
Qed.

Definition inserted (t : nat) (target_line : str) (lines : list str)
  : list str :=
  take t lines ++ new_lines target_line ++ drop (S t) lines.

Lemma insert_controls_run t lines target_line w :
  lines !! t = Some target_line ->
  insert_controls t lines w = (Done (inserted t target_line lines), w).
Proof.
  intros Ht. unfold insert_controls.
  rewrite (bind_done _ _ _ _ _ (index_some _ _ _ _ Ht)). run_py.
  f_equal. f_equal.
  pose proof (lookup_lt_Some _ _ _ Ht) as Hlt.
  rewrite insert_each_app by (rewrite length_insert; lia).
  rewrite insert_take_drop by done.
  assert (length (take t lines) = t) as Hlen by (rewrite length_take; lia).
  rewrite take_app_add', drop_app_add' by done.
  cbn [take drop]. unfold inserted. by rewrite <- !app_assoc.
Qed.
End FixChartControlsFacts.

(** ** The fix-up scan of fix_chart_controls.py *)

Section FixupFacts.
Import FixChartControls.
Implicit Types lines : list str.

(** A closing-marker line followed by a conditional-closing line. *)
Definition closing_pair lines (i : nat) : Prop :=
  exists a b,
    lines !! i = Some a /\ lines !! (i + 1) = Some b /\
    substring (py "</div>") a /\ substring (py ")}\n") b.

(** The line two below exists and mentions [chartView]. *)
Definition chartView_follows lines (i : nat) : Prop :=
  exists c, lines !! (i + 2) = Some c /\ substring (py "chartView") c.

(** What the loop accepts: a pair whose next line does not mention
    [chartView]. *)
Definition closing_match lines (i : nat) : Prop :=
  closing_pair lines i /\
  exists c, lines !! (i + 2) = Some c /\ ~ substring (py "chartView") c.

Definition in_window (t : nat) lines (i : nat) : Prop :=
  t + 50 <= i < Nat.min (t + 100) (length lines - 1).

Lemma closing_test_rejects lines i w :
  i < length lines ->
  (closing_pair lines i -> chartView_follows lines i) ->
  closing_test lines i w = (Done false, w).
Proof.
  intros Hi Hrej. unfold closing_test.
  destruct (lookup_lt_is_Some_2 lines i Hi) as [a Ha].
  rewrite (bind_done _ _ _ _ _ (index_some _ _ _ _ Ha)).
  destruct (contains (py "</div>") a) eqn:Ea; [|done]. cbn [negb].
  destruct (i + 1 <? length lines) eqn:Ei; [|done]. cbn [negb].
  apply Nat.ltb_lt in Ei.
  destruct (lookup_lt_is_Some_2 lines (i + 1) Ei) as [b Hb].
  rewrite (bind_done _ _ _ _ _ (index_some _ _ _ _ Hb)).
  destruct (contains (py ")}\n") b) eqn:Eb; [|done]. cbn [negb].
  destruct Hrej as (c & Hc & Hsub).
  { exists a, b. by rewrite <- !contains_spec. }
  rewrite (bind_done _ _ _ _ _ (index_some _ _ _ _ Hc)).
  apply contains_spec in Hsub. by rewrite Hsub.
Qed.

Lemma closing_test_pair lines i w :
  closing_pair lines i ->
  closing_test lines i w =
    (c <- index lines (i + 2) ;;
     ret (negb (contains (py "chartView") c))) w.
Proof.
  intros (a & b & Ha & Hb & Hsa & Hsb). unfold closing_test.
  rewrite (bind_done _ _ _ _ _ (index_some _ _ _ _ Ha)).
  apply contains_spec in Hsa, Hsb. rewrite Hsa. cbn [negb].
  pose proof (lookup_lt_Some _ _ _ Hb) as Hlt.
  apply Nat.ltb_lt in Hlt. rewrite Hlt. cbn [negb].
  rewrite (bind_done _ _ _ _ _ (index_some _ _ _ _ Hb)).
  by rewrite Hsb.
Qed.

Lemma closing_test_accepts lines i w :
  closing_match lines i -> closing_test lines i w = (Done true, w).
Proof.
  intros [Hpair (c & Hc & Hsub)]. rewrite closing_test_pair by done.
  rewrite (bind_done _ _ _ _ _ (index_some _ _ _ _ Hc)).
  apply contains_false in Hsub. by rewrite Hsub.
Qed.

Lemma closing_test_raises lines i w :
  closing_pair lines i -> lines !! (i + 2) = None ->
  closing_test lines i w = (Raised IndexError, w).
Proof.
  intros Hpair Hnone. rewrite closing_test_pair by done.
  by rewrite (bind_raised _ _ _ _ _ (index_none _ _ _ Hnone)).
Qed.

Lemma fixup_loop_skip pre rest lines w :
  (forall j, j ∈ pre ->
     j < length lines /\ (closing_pair lines j -> chartView_follows lines j)) ->
  fixup_loop (pre ++ rest) lines w = fixup_loop rest lines w.
Proof.
  induction pre as [|j pre IH]; intros Hpre; [done|].
  cbn [app fixup_loop].
  destruct (Hpre j) as [Hj Hrej]; [apply list_elem_of_here|].
  rewrite (bind_done _ _ _ _ _ (closing_test_rejects _ _ _ Hj Hrej)).
  apply IH. intros k Hk. apply Hpre. by apply list_elem_of_further.
Qed.

Lemma fixup_loop_hit i rest lines b w :
  closing_match lines i -> lines !! (i + 1) = Some b ->
  fixup_loop (i :: rest) lines w =
    (Done (<[i + 1 := fragment_close ++ b]> lines),
     mkWorld (fs w) (stdout w ++ [msg_updated i])).
Proof.
  intros Hm Hb. cbn [fixup_loop].
  rewrite (bind_done _ _ _ _ _ (closing_test_accepts _ _ _ Hm)).
  rewrite (bind_done _ _ _ _ _ (index_some _ _ _ _ Hb)).
  run_py. reflexivity.
Qed.

Lemma fixup_loop_raises i rest lines w :
  closing_pair lines i -> lines !! (i + 2) = None ->
  fixup_loop (i :: rest) lines w = (Raised IndexError, w).
Proof.
  intros Hp Hn. cbn [fixup_loop].
  by rewrite (bind_raised _ _ _ _ _ (closing_test_raises _ _ _ Hp Hn)).
Qed.

Lemma range_split lo hi i :
  lo <= i < hi -> range lo hi = range lo i ++ i :: range (S i) hi.
Proof.
  intros H. unfold range.
  replace (hi - lo) with ((i - lo) + S (hi - S i)) by lia.
  rewrite seq_app. cbn [seq]. do 3 f_equal; lia.
Qed.

Lemma elem_of_range lo hi j : j ∈ range lo hi <-> lo <= j < hi.
Proof. unfold range. rewrite elem_of_seq. lia. Qed.

(** The scan falls through when no index of the window is accepted
    and none makes the test read past the end. *)
Lemma fixup_miss t lines w :
  (forall i, in_window t lines i ->
     closing_pair lines i -> chartView_follows lines i) ->
  fixup t lines w = (Done lines, w).
Proof.
  intros Hrej. unfold fixup.
  rewrite <- (app_nil_r (range _ _)), fixup_loop_skip; [done|].
  intros j Hj%elem_of_range. split.
  - unfold in_window in *. lia.
  - by apply Hrej.
Qed.

(** The scan stops at the first accepted index of the window. *)
Lemma fixup_hit t lines i b w :
  in_window t lines i ->
  closing_match lines i -> lines !! (i + 1) = Some b ->
  (forall j, t + 50 <= j < i -> ~ closing_match lines j) ->
  fixup t lines w =
    (Done (<[i + 1 := fragment_close ++ b]> lines),
     mkWorld (fs w) (stdout w ++ [msg_updated i])).
Proof.
  intros Hi Hm Hb Hfirst. unfold fixup.
  rewrite (range_split _ _ i) by done.
  rewrite fixup_loop_skip; [by apply fixup_loop_hit|].
  intros j Hj%elem_of_range. unfold in_window in Hi. split; [lia|].
  intros Hpair.
  destruct (lookup_lt_is_Some_2 lines (j + 2)) as [c Hc]; [lia|].
  exists c. split; [done|].
  destruct (contains (py "chartView") c) eqn:E; [by apply contains_spec|].
  destruct (Hfirst j); [lia|]. split; [done|].
  exists c. split; [done|]. by apply contains_false.
Qed.

(** The scan reads past the end when the first pair that is not
    followed by a [chartView] line sits on the last two lines. *)
Lemma fixup_raises t lines i w :
  in_window t lines i ->
  closing_pair lines i -> i + 2 = length lines ->
  (forall j, t + 50 <= j < i -> ~ closing_match lines j) ->
  fixup t lines w = (Raised IndexError, w).
Proof.
  intros Hi Hp Hlen Hfirst. unfold fixup.
  rewrite (range_split _ _ i) by done.
  rewrite fixup_loop_skip.
  { apply fixup_loop_raises; [done|]. apply lookup_ge_None. lia. }
  intros j Hj%elem_of_range. split; [lia|].
  intros Hpair.
  destruct (lookup_lt_is_Some_2 lines (j + 2)) as [c Hc]; [lia|].
  exists c. split; [done|].
  destruct (contains (py "chartView") c) eqn:E; [by apply contains_spec|].
  destruct (Hfirst j); [lia|]. split; [done|].
  exists c. split; [done|]. by apply contains_false.
Qed.
End FixupFacts.

(** ** fix_chart_controls.py: the run up to the fix-up *)

Section ControlsRuns.
Import FixChartControls.
Variables (w : World) (content : str).
Hypothesis Hread : fs w !! chart_path = Some content.
Let lines := readlines content.

Lemma controls_no_target :
  find_target lines = None ->
  main w = (Exit 1, mkWorld (fs w) (stdout w ++ [msg_no_target])).
Proof.
  intros H. unfold main.
  rewrite (bind_done _ _ _ _ _ (read_text_some _ _ Hread)).
  fold lines. rewrite H. run_py. reflexivity.
Qed.

Lemma controls_next_missing t :
  find_target lines = Some t -> lines !! (t + 1) = None ->
  main w = (Raised IndexError, mkWorld (fs w) (stdout w ++ [msg_found t])).
Proof.
  intros H Hn. unfold main.
  rewrite (bind_done _ _ _ _ _ (read_text_some _ _ Hread)).
  fold lines. rewrite H. run_py.
  unfold index. rewrite Hn. reflexivity.
Qed.

Lemma controls_unexpected t next :
  find_target lines = Some t -> lines !! (t + 1) = Some next ->
  contains div_marker next = false ->
  main w =
    (Exit 1, mkWorld (fs w) (stdout w ++ [msg_found t; msg_unexpected])).
Proof.
  intros H Hn Hdiv. unfold main.
  rewrite (bind_done _ _ _ _ _ (read_text_some _ _ Hread)).
  fold lines. rewrite H. run_py.
  unfold index. rewrite Hn. run_py. rewrite Hdiv. run_py. reflexivity.
Qed.

Lemma controls_inserted t target_line next :
  find_target lines = Some t ->
  lines !! t = Some target_line -> lines !! (t + 1) = Some next ->
  contains div_marker next = true ->
  main w =
    (lines' <- fixup t (inserted t target_line lines) ;;
     write_text chart_path (writelines lines') ;;
     print msg_success)
    (mkWorld (fs w) (stdout w ++ [msg_found t])).
Proof.
  intros H Ht Hn Hdiv. unfold main.
  rewrite (bind_done _ _ _ _ _ (read_text_some _ _ Hread)).
  fold lines. rewrite H.
  rewrite (bind_done _ (fun _ => _ ;; _) w t w) by done.
  rewrite (bind_done (print _) _ w tt
             (mkWorld (fs w) (stdout w ++ [msg_found t]))) by done.
  rewrite (bind_done _ _ _ _ _ (index_some _ _ _ _ Hn)), Hdiv.
  cbn [negb].
  rewrite (bind_done (ret tt) _ _ tt _ eq_refl).
  by rewrite (bind_done _ _ _ _ _ (insert_controls_run _ _ _ _ Ht)).
Qed.
End ControlsRuns.

(** ** Deciding hypotheses on concrete documents *)

(** Offsets at which [p] occurs in [s], counted from [k]. *)
Fixpoint occurrences_from (k : nat) (p s : str) : list nat :=
  (if startswith p s then [k] else []) ++
  match s with
  | [] => []
  | _ :: s' => occurrences_from (S k) p s'
  end.

Lemma occurrences_from_unfold k p s :
  occurrences_from k p s =
  (if startswith p s then [k] else []) ++
  match s with [] => [] | _ :: s' => occurrences_from (S k) p s' end.
Proof. by destruct s. Qed.

Lemma occurrences_from_elem k p a b :
  k + length a ∈ occurrences_from k p (a ++ p ++ b).
Proof.
  revert k. induction a as [|c a IH]; intros k.
  - rewrite occurrences_from_unfold. cbn [app length].
    rewrite (startswith_app p b), Nat.add_0_r.
    apply elem_of_app. left. apply list_elem_of_here.
  - change ((c :: a) ++ p ++ b) with (c :: (a ++ p ++ b)).
    rewrite occurrences_from_unfold. apply elem_of_app. right.
    cbn [length]. replace (k + S (length a)) with (S k + length a) by lia.
    apply IH.
Qed.

(** A single offset found by the scan means a single decomposition. *)
Lemma single_occurrence p a b :
  occurrences_from 0 p (a ++ p ++ b) = [length a] ->
  forall a' b', a ++ p ++ b = a' ++ p ++ b' -> a' = a.
Proof.
  intros Hocc a' b' E.
  pose proof (occurrences_from_elem 0 p a' b') as Hin.
  rewrite <- E, Hocc in Hin. apply list_elem_of_singleton in Hin.
  cbn [Nat.add] in Hin. symmetry in E. by apply app_inj_1 in E as [? _].
Qed.

Lemma lookup_forallb_idx (f : nat -> str -> bool) (lines : list str) :
  forallb (fun '(k, l) => f k l) (imap pair lines) = true ->
  forall k l, lines !! k = Some l -> f k l = true.
Proof.
  intros H k l Hl. rewrite forallb_forall in H.
  apply (H (k, l)). apply list_elem_of_In, elem_of_lookup_imap.
  by exists k, l.
Qed.

Lemma range_forallb (f : nat -> bool) lo hi :
  forallb f (seq lo (hi - lo)) = true ->
  forall i, lo <= i < hi -> f i = true.
Proof.
  intros H i Hi. rewrite forallb_forall in H. apply H, in_seq. lia.
Qed.

(** The world in which the chart file holds [text] and nothing has been
    printed. *)
Definition world_of (text : str) : World :=
  mkWorld {[chart_path := text]} [].

Lemma world_of_read text : fs (world_of text) !! chart_path = Some text.
Proof. apply lookup_singleton_eq. Qed.

(** * The claims *)

(** ** C4: whole-string replace with a single occurrence *)

(** C4.  When the document contains exactly one occurrence of the old
    block (it splits as [a ++ old ++ b] in one way only), [replace]
    returns [a ++ new ++ b]: the text before the match and the text
    after it are kept character for character and the matched region is
    the new block. *)
Theorem replace_single_occurrence (old new a b : str) :
  (forall a' b', a ++ old ++ b = a' ++ old ++ b' -> a' = a) ->
  replace old new (a ++ old ++ b) = a ++ new ++ b /\
  take (length a) (replace old new (a ++ old ++ b)) = a /\
  drop (length a + length new) (replace old new (a ++ old ++ b)) = b.
Proof.
  intros Huniq. rewrite (replace_once old new a b Huniq).
  split; [done|]. split.
  - by rewrite take_app_length.
  - rewrite app_assoc, <- length_app. by rewrite drop_app_length.
Qed.

Lemma replace_single_occurrence_witness :
  replace UpdateChartControls.old_section UpdateChartControls.new_section
    (py "<main>\n" ++ UpdateChartControls.old_section ++ py "\n</main>\n")
  = py "<main>\n" ++ UpdateChartControls.new_section ++ py "\n</main>\n".
Proof.
  apply (replace_single_occurrence
           UpdateChartControls.old_section UpdateChartControls.new_section
           (py "<main>\n") (py "\n</main>\n")).
  apply single_occurrence. vm_compute. reflexivity.
Defined.

(** ** C5: line-scan locate with a floor *)

(** C5.  The target scan returns the first index [i > 200] whose line
    contains the marker [chartView === 'timeline' &&]; it returns [None]
    exactly when no line past index 200 contains it; and when the marker
    occurs on two lines only, one at or below the floor and one above
    it, the scan returns the later one. *)
Theorem line_scan_locate (lines : list str) :
  (forall i, FixChartControls.find_target lines = Some i <-> first_target lines i) /\
  (FixChartControls.find_target lines = None <-> no_target lines) /\
  (forall i j li lj,
     i <= 200 -> 200 < j ->
     lines !! i = Some li -> lines !! j = Some lj ->
     substring FixChartControls.marker li ->
     substring FixChartControls.marker lj ->
     (forall k l, lines !! k = Some l ->
        substring FixChartControls.marker l -> k = i \/ k = j) ->
     FixChartControls.find_target lines = Some j).
Proof.
  split; [apply find_target_Some|]. split; [apply find_target_None|].
  intros i j li lj Hi Hj Hli Hlj Hsi Hsj Honly.
  apply find_target_Some. repeat split; [done|by exists lj|].
  intros k l Hk Hk' Hl Hsub.
  destruct (Honly k l Hl Hsub); lia.
Qed.

(** A document whose line 6 and line 211 (indices 5 and 210) both carry
    the marker. *)
Definition two_marker_lines : list str :=
  let marked := py "    {chartView === 'timeline' && (\n" in
  replicate 5 [LF] ++ marked :: replicate 204 [LF] ++ marked :: replicate 3 [LF].

Lemma line_scan_locate_witness :
  FixChartControls.find_target two_marker_lines = Some 210.
Proof.
  refine (proj2 (proj2 (line_scan_locate two_marker_lines)) 5 210 _ _ _ _ _ _ _ _ _).
  - lia.
  - lia.
  - reflexivity.
  - reflexivity.
  - apply contains_spec. vm_compute. reflexivity.
  - apply contains_spec. vm_compute. reflexivity.
  - intros k l Hl Hsub.
    pose proof (lookup_forallb_idx
      (fun k l => negb (contains FixChartControls.marker l)
                  || (k =? 5) || (k =? 210))
      two_marker_lines) as H.
    specialize (H ltac:(vm_compute; reflexivity) k l Hl). cbv beta in H.
    apply contains_spec in Hsub. rewrite Hsub in H. cbn [negb orb] in H.
    apply orb_true_iff in H as [H|H]; apply Nat.eqb_eq in H; auto.
Defined.

(** ** C10: fix_chart_final.py never tests for its blocks *)

(** C10.  On every document [fix_chart_final.py] performs both
    replacements, writes the result, prints the success line and ends
    normally (status 0); when neither literal block occurs in the
    document the text written is the text read. *)
Theorem fix_chart_final_unconditional (w : World) (content : str) :
  fs w !! chart_path = Some content ->
  let written :=
    replace FixChartFinal.final_close_old FixChartFinal.final_close_new
      (replace FixChartFinal.misplaced_close_old
         FixChartFinal.misplaced_close_new content) in
  FixChartFinal.main w =
    (Done tt,
     mkWorld (<[chart_path := written]> (fs w))
       (stdout w ++ [FixChartFinal.msg_success])) /\
  status (FixChartFinal.main w).1 = 0%Z /\
  (~ substring FixChartFinal.misplaced_close_old content ->
   ~ substring FixChartFinal.final_close_old content ->
   written = content).
Proof.
  intros Hread written.
  rewrite (fix_chart_final_run w content Hread). fold written.
  split; [done|]. split; [done|].
  intros H1%contains_false H2%contains_false.
  by apply replace_twice_absent.
Qed.

Definition small_doc : str := Eval vm_compute in py "<div>\n</div>\n".

Lemma fix_chart_final_unconditional_witness :
  FixChartFinal.main (world_of small_doc) =
    (Done tt,
     mkWorld (<[chart_path := small_doc]> (fs (world_of small_doc)))
       [FixChartFinal.msg_success]).
Proof.
  destruct (fix_chart_final_unconditional (world_of small_doc) small_doc
              (world_of_read small_doc)) as (Hrun & _ & Hsame).
  rewrite Hsame in Hrun.
  - exact Hrun.
  - apply contains_false. vm_compute. reflexivity.
  - apply contains_false. vm_compute. reflexivity.
Defined.

(** ** C3: update_chart_controls.py does not persist a half-done edit *)

(** C3.  When the opening block is in the document but, after it has
    been replaced in memory, the closing block is not, the script stops
    with [exit(1)] before the write: the file system is the one it
    started with. *)
Theorem update_close_missing_no_write (w : World) (content : str) :
  fs w !! chart_path = Some content ->
  substring UpdateChartControls.old_section content ->
  ~ substring UpdateChartControls.old_close
      (replace UpdateChartControls.old_section
         UpdateChartControls.new_section content) ->
  UpdateChartControls.main w =
    (Exit 1,
     mkWorld (fs w)
       (stdout w ++ [UpdateChartControls.msg_section_replaced;
                     UpdateChartControls.msg_close_not_found])) /\
  status (UpdateChartControls.main w).1 = 1%Z /\
  fs (UpdateChartControls.main w).2 = fs w.
Proof.
  intros Hread H1%contains_spec H2%contains_false.
  by rewrite (update_close_absent w content Hread H1 H2).
Qed.

Lemma update_close_missing_no_write_witness :
  fs (UpdateChartControls.main (world_of UpdateChartControls.old_section)).2
  = fs (world_of UpdateChartControls.old_section).
Proof.
  apply (update_close_missing_no_write
           (world_of UpdateChartControls.old_section)
           UpdateChartControls.old_section).
  - apply world_of_read.
  - apply contains_spec. vm_compute. reflexivity.
  - apply contains_false. vm_compute. reflexivity.
Defined.

(** ** C1: a missing anchor *)

(** C1, as stated, fails for [fix_chart_final.py]: on a document that
    contains neither of its two blocks the script still ends with status
    0, prints its success line and rewrites the file. *)
Lemma final_missing_blocks_exit_zero :
  ~ substring FixChartFinal.misplaced_close_old small_doc /\
  ~ substring FixChartFinal.final_close_old small_doc /\
  status (FixChartFinal.main (world_of small_doc)).1 = 0%Z /\
  stdout (FixChartFinal.main (world_of small_doc)).2
    = [FixChartFinal.msg_success].
Proof.
  split; [apply contains_false; vm_compute; reflexivity|].
  split; [apply contains_false; vm_compute; reflexivity|].
  by rewrite (fix_chart_final_run _ _ (world_of_read small_doc)).
Qed.

(** C1, amended.  In [update_chart_controls.py] (opening block absent,
    or closing block absent after the first replacement) and in
    [fix_chart_controls.py] (no line past index 200 carries the marker,
    or the line after the target lacks the [div] marker) the script
    prints a diagnostic line, stops with [exit(1)], and the file system
    is left as it was.  [fix_chart_final.py] has no such test: it always
    ends normally after printing its success line. *)
Theorem missing_anchor_aborts (w : World) (content : str) :
  fs w !! chart_path = Some content ->
  ((~ substring UpdateChartControls.old_section content \/
    ~ substring UpdateChartControls.old_close
        (replace UpdateChartControls.old_section
           UpdateChartControls.new_section content)) ->
   exists msgs,
     UpdateChartControls.main w = (Exit 1, mkWorld (fs w) (stdout w ++ msgs)) /\
     (UpdateChartControls.msg_section_not_found ∈ msgs \/
      UpdateChartControls.msg_close_not_found ∈ msgs)) /\
  ((no_target (readlines content) \/
    exists t next,
      first_target (readlines content) t /\
      readlines content !! (t + 1) = Some next /\
      ~ substring FixChartControls.div_marker next) ->
   exists msgs,
     FixChartControls.main w = (Exit 1, mkWorld (fs w) (stdout w ++ msgs)) /\
     (FixChartControls.msg_no_target ∈ msgs \/
      FixChartControls.msg_unexpected ∈ msgs)) /\
  ((FixChartFinal.main w).1 = Done tt /\
   stdout (FixChartFinal.main w).2 = stdout w ++ [FixChartFinal.msg_success]).
Proof.
  intros Hread. split; [|split]; [| |by rewrite (fix_chart_final_run w content Hread)].
  - intros Habs.
    destruct (contains UpdateChartControls.old_section content) eqn:E1.
    + destruct Habs as [Habs|Habs]; [by apply contains_spec in E1|].
      apply contains_false in Habs.
      eexists. split; [exact (update_close_absent w content Hread E1 Habs)|].
      right. apply list_elem_of_further, list_elem_of_here.
    + eexists. split; [exact (update_section_absent w content Hread E1)|].
      left. apply list_elem_of_here.
  - intros [Hnone|(t & next & Ht & Hnext & Hdiv)].
    + apply find_target_None in Hnone.
      eexists. split; [exact (controls_no_target w content Hread Hnone)|].
      left. apply list_elem_of_here.
    + apply find_target_Some in Ht. apply contains_false in Hdiv.
      eexists. split; [exact (controls_unexpected w content Hread t next Ht Hnext Hdiv)|].
      right. apply list_elem_of_further, list_elem_of_here.
Qed.

Lemma missing_anchor_aborts_witness :
  (exists msgs,
     UpdateChartControls.main (world_of small_doc)
       = (Exit 1, mkWorld (fs (world_of small_doc)) msgs) /\
     (UpdateChartControls.msg_section_not_found ∈ msgs \/
      UpdateChartControls.msg_close_not_found ∈ msgs)) /\
  (exists msgs,
     FixChartControls.main (world_of small_doc)
       = (Exit 1, mkWorld (fs (world_of small_doc)) msgs) /\
     (FixChartControls.msg_no_target ∈ msgs \/
      FixChartControls.msg_unexpected ∈ msgs)).
Proof.
  destruct (missing_anchor_aborts (world_of small_doc) small_doc
              (world_of_read small_doc)) as (Hupd & Hctl & _).
  split.
  - apply Hupd. left. apply contains_false. vm_compute. reflexivity.
  - apply Hctl. left. apply find_target_None. vm_compute. reflexivity.
Defined.

(** ** Checking a window of a concrete line list *)

Section WindowChecks.
Implicit Types lines : list str.

Definition closing_pair_b lines (i : nat) : bool :=
  match lines !! i, lines !! (i + 1) with
  | Some a, Some b => contains (py "</div>") a && contains (py ")}\n") b
  | _, _ => false
  end.

Definition chartView_follows_b lines (i : nat) : bool :=
  match lines !! (i + 2) with
  | Some c => contains (py "chartView") c
  | None => false
  end.

Lemma closing_pair_b_spec lines i :
  closing_pair_b lines i = true <-> closing_pair lines i.
Proof.
  unfold closing_pair_b, closing_pair. split.
  - destruct (lines !! i) as [a|]; [|done].
    destruct (lines !! (i + 1)) as [b|]; [|done].
    rewrite andb_true_iff, !contains_spec. intros [Ha Hb]. by exists a, b.
  - intros (a & b & -> & -> & Ha & Hb).
    rewrite andb_true_iff, !contains_spec. done.
Qed.

Lemma chartView_follows_b_spec lines i :
  chartView_follows_b lines i = true <-> chartView_follows lines i.
Proof.
  unfold chartView_follows_b, chartView_follows. split.
  - destruct (lines !! (i + 2)) as [c|]; [|done].
    rewrite contains_spec. intros Hc. by exists c.
  - intros (c & -> & Hc). by apply contains_spec.
Qed.

Definition rejects_b lines (i : nat) : bool :=
  negb (closing_pair_b lines i) || chartView_follows_b lines i.

Lemma rejects_b_pair lines i :
  rejects_b lines i = true ->
  closing_pair lines i -> chartView_follows lines i.
Proof.
  unfold rejects_b. intros H Hp%closing_pair_b_spec. rewrite Hp in H.
  by apply chartView_follows_b_spec.
Qed.

Lemma rejects_b_no_match lines i :
  rejects_b lines i = true -> ~ closing_match lines i.
Proof.
  intros H [Hp (c & Hc & Hno)].
  destruct (rejects_b_pair lines i H Hp) as (c' & Hc' & Hyes).
  rewrite Hc in Hc'. by injection Hc' as <-.
Qed.

Lemma window_rejects t lines :
  forallb (rejects_b lines)
    (FixChartControls.range (t + 50)
       (Nat.min (t + 100) (length lines - 1))) = true ->
  forall i, in_window t lines i ->
    closing_pair lines i -> chartView_follows lines i.
Proof.
  intros H i Hi. apply rejects_b_pair.
  by apply (range_forallb _ _ _ H).
Qed.

Lemma before_rejects lo i lines :
  forallb (rejects_b lines) (FixChartControls.range lo i) = true ->
  forall j, lo <= j < i -> ~ closing_match lines j.
Proof.
  intros H j Hj. apply rejects_b_no_match.
  by apply (range_forallb _ _ _ H).
Qed.
End WindowChecks.

(** Sample documents: 201 empty lines, the conditional on line 202
    (index 201), the [div] on the next line, then [tail]. *)
Definition conditional_line : str :=
  Eval vm_compute in py "                    {chartView === 'timeline' && (\n".
Definition div_line : str :=
  Eval vm_compute in
    py "                       <div className=\qrelative\q ref={metricConfigRef}>\n".
Definition filler : str := Eval vm_compute in py "  <span/>\n".
Definition div_close_line : str := Eval vm_compute in py "                       </div>\n".
Definition cond_close_line : str := Eval vm_compute in py "                    )}\n".
Definition other_view_line : str :=
  Eval vm_compute in py "                    {chartView === 'table' && (\n".
Definition button_line : str :=
  Eval vm_compute in py "                    <button onClick={onGenerate}>\n".

Definition sample_lines (tail : list str) : list str :=
  replicate 201 [LF] ++ conditional_line :: div_line :: tail.

Definition sample_doc (tail : list str) : str := concat (sample_lines tail).

(** ** C2: the fix-up that finds nothing *)

(** C2.  In [fix_chart_controls.py], when the target and the [div] line
    are found and no index of the window of the line list after the
    insertion is accepted (every [</div>] line followed by a [)}] line
    there is followed by a line mentioning [chartView], or there is no
    such pair), the fix-up changes nothing and reports nothing: the
    script writes the document with the inserted controls and no
    closing token, prints the success line and ends with status 0. *)
Theorem fixup_miss_is_silent (w : World) (content target_line next : str) (t : nat) :
  fs w !! chart_path = Some content ->
  let lines := readlines content in
  FixChartControls.find_target lines = Some t ->
  lines !! t = Some target_line ->
  lines !! (t + 1) = Some next ->
  substring FixChartControls.div_marker next ->
  let lines' := inserted t target_line lines in
  (forall i, in_window t lines' i ->
     closing_pair lines' i -> chartView_follows lines' i) ->
  FixChartControls.main w =
    (Done tt,
     mkWorld (<[chart_path := writelines lines']> (fs w))
       (stdout w ++ [FixChartControls.msg_found t;
                     FixChartControls.msg_success])) /\
  status (FixChartControls.main w).1 = 0%Z /\
  writelines lines' =
    writelines (take t lines) ++
    writelines (FixChartControls.new_lines target_line) ++
    writelines (drop (S t) lines).
Proof.
  intros Hread lines Ht Htl Hnext Hdiv%contains_spec lines' Hwin.
  assert (FixChartControls.main w =
    (Done tt,
     mkWorld (<[chart_path := writelines lines']> (fs w))
       (stdout w ++ [FixChartControls.msg_found t;
                     FixChartControls.msg_success]))) as Hrun.
  { rewrite (controls_inserted w content Hread t target_line next Ht Htl Hnext Hdiv).
    fold lines lines'.
    rewrite (bind_done _ _ _ _ _ (fixup_miss t lines' _ Hwin)).
    run_py. reflexivity. }
  split; [exact Hrun|]. split; [by rewrite Hrun|].
  unfold lines', inserted, writelines. by rewrite !concat_app.
Qed.

Definition miss_doc : str :=
  sample_doc (replicate 20 filler ++
              [div_close_line; cond_close_line; other_view_line] ++
              replicate 5 filler).

Lemma fixup_miss_is_silent_witness :
  status (FixChartControls.main (world_of miss_doc)).1 = 0%Z.
Proof.
  refine (proj1 (proj2
    (fixup_miss_is_silent (world_of miss_doc) miss_doc
       conditional_line div_line 201 _ _ _ _ _ _))).
  - apply world_of_read.
  - vm_compute. reflexivity.
  - vm_compute. reflexivity.
  - vm_compute. reflexivity.
  - apply contains_spec. vm_compute. reflexivity.
  - apply window_rejects. vm_compute. reflexivity.
Defined.

(** ** C6: what the fix-up acts on *)

Definition skip_doc : str :=
  sample_doc (replicate 20 filler ++
              [div_close_line; cond_close_line; other_view_line;
               div_close_line; cond_close_line; button_line]).

Definition skip_lines : list str :=
  inserted 201 conditional_line (readlines skip_doc).

(** C6, as stated, fails: the first [</div>] line followed by a [)}]
    line in the window is at index 253, yet the fix-up leaves the [)}]
    line at 254 as it is and puts the closing token before the one at
    257, because the line after the first pair mentions [chartView]. *)
Lemma fixup_skips_first_pair :
  FixChartControls.find_target (readlines skip_doc) = Some 201 /\
  in_window 201 skip_lines 253 /\
  closing_pair skip_lines 253 /\
  ~ closing_pair skip_lines 251 /\
  ~ closing_pair skip_lines 252 /\
  exists fixed,
    (FixChartControls.fixup 201 skip_lines (world_of skip_doc)).1 = Done fixed /\
    fs (FixChartControls.main (world_of skip_doc)).2 !! chart_path
      = Some (writelines fixed) /\
    fixed !! 254 = Some cond_close_line /\
    fixed !! 257 = Some (FixChartControls.fragment_close ++ cond_close_line) /\
    fixed <> <[254 := FixChartControls.fragment_close ++ cond_close_line]> skip_lines.
Proof.
  split; [vm_compute; reflexivity|].
  split; [unfold in_window; vm_compute; lia|].
  split; [apply closing_pair_b_spec; vm_compute; reflexivity|].
  split; [rewrite <- closing_pair_b_spec; vm_compute; discriminate|].
  split; [rewrite <- closing_pair_b_spec; vm_compute; discriminate|].
  eexists. split; [vm_compute; reflexivity|].
  split; [vm_compute; reflexivity|].
  split; [vm_compute; reflexivity|].
  split; [vm_compute; reflexivity|].
  intros E. apply (f_equal (fun l => l !! 254)) in E.
  vm_compute in E. discriminate E.
Qed.

(** C6, amended.  The fix-up looks at the indices
    [target + 50 <= i < min (target + 100) (len lines - 1)] of the line
    list after the insertion, for a line containing [</div>] whose next
    line contains [)}] and a line feed and whose line after that does
    not contain [chartView]; at the first such index it puts the closing
    token line in front of the [)}] line, prints one line and stops
    scanning.  In the text written, the token sits between the lines up
    to [i] and the [)}] line. *)
Theorem fixup_splices_first_match (t i : nat) (lines : list str) (b : str) (w : World) :
  in_window t lines i ->
  closing_match lines i ->
  lines !! (i + 1) = Some b ->
  (forall j, t + 50 <= j < i -> ~ closing_match lines j) ->
  FixChartControls.fixup t lines w =
    (Done (<[i + 1 := FixChartControls.fragment_close ++ b]> lines),
     mkWorld (fs w) (stdout w ++ [FixChartControls.msg_updated i])) /\
  writelines (<[i + 1 := FixChartControls.fragment_close ++ b]> lines) =
    writelines (take (i + 1) lines) ++ FixChartControls.fragment_close ++
    writelines (drop (i + 1) lines).
Proof.
  intros Hi Hm Hb Hfirst. split; [by apply fixup_hit|].
  pose proof (lookup_lt_Some _ _ _ Hb) as Hlt.
  rewrite insert_take_drop by done. unfold writelines.
  rewrite concat_app, concat_cons, <- app_assoc. do 2 f_equal.
  rewrite <- (take_drop_middle lines (i + 1) b Hb) at 2.
  rewrite drop_app_length'; [done|]. rewrite length_take. lia.
Qed.

Lemma fixup_splices_first_match_witness :
  (FixChartControls.fixup 201 skip_lines (world_of skip_doc)).1 =
    Done (<[257 := FixChartControls.fragment_close ++ cond_close_line]> skip_lines).
Proof.
  destruct (fixup_splices_first_match 201 256 skip_lines cond_close_line
              (world_of skip_doc)) as [Hrun _].
  - unfold in_window. vm_compute. lia.
  - split; [apply closing_pair_b_spec; vm_compute; reflexivity|].
    exists button_line. split; [vm_compute; reflexivity|].
    apply contains_false. vm_compute. reflexivity.
  - vm_compute. reflexivity.
  - apply before_rejects. vm_compute. reflexivity.
  - by rewrite Hrun.
Defined.

(** ** C9: reads past the end of the line list *)

(** C9.  Two index reads of [fix_chart_controls.py] can fall outside
    the list.  When the target is the last line, [lines[target + 1]]
    raises [IndexError].  When, after the insertion, the first pair of
    the window that is not rejected sits on the last two lines,
    [lines[i + 2]] raises [IndexError].  In both cases the script stops
    after the [Found target] line, without a write and without the
    not-found exit. *)
Theorem index_error_reachable (w : World) (content : str) (t : nat) :
  fs w !! chart_path = Some content ->
  let lines := readlines content in
  FixChartControls.find_target lines = Some t ->
  (length lines = t + 1 ->
   FixChartControls.main w =
     (Raised IndexError,
      mkWorld (fs w) (stdout w ++ [FixChartControls.msg_found t]))) /\
  (forall target_line next i,
     lines !! t = Some target_line ->
     lines !! (t + 1) = Some next ->
     substring FixChartControls.div_marker next ->
     let lines' := inserted t target_line lines in
     in_window t lines' i ->
     closing_pair lines' i ->
     i + 2 = length lines' ->
     (forall j, t + 50 <= j < i -> ~ closing_match lines' j) ->
     FixChartControls.main w =
       (Raised IndexError,
        mkWorld (fs w) (stdout w ++ [FixChartControls.msg_found t]))).
Proof.
  intros Hread lines Ht. split.
  - intros Hlen. apply (controls_next_missing w content Hread t Ht).
    apply lookup_ge_None. fold lines. lia.
  - intros target_line next i Htl Hnext Hdiv%contains_spec lines' Hi Hp Hlen Hfirst.
    rewrite (controls_inserted w content Hread t target_line next Ht Htl Hnext Hdiv).
    fold lines lines'.
    by rewrite (bind_raised _ _ _ _ _ (fixup_raises t lines' i _ Hi Hp Hlen Hfirst)).
Qed.

(** The conditional on the last line of the file. *)
Definition last_line_doc : str :=
  concat (replicate 201 [LF] ++ [conditional_line]).

(** A closing pair on the last two lines of the file. *)
Definition trailing_pair_doc : str :=
  sample_doc (replicate 20 filler ++ [div_close_line; cond_close_line]).

Lemma index_error_reachable_witness :
  (FixChartControls.main (world_of last_line_doc)).1 = Raised IndexError /\
  (FixChartControls.main (world_of trailing_pair_doc)).1 = Raised IndexError.
Proof.
  split.
  - destruct (index_error_reachable (world_of last_line_doc) last_line_doc 201)
      as [Hrun _].
    + apply world_of_read.
    + vm_compute. reflexivity.
    + rewrite Hrun; [done|]. vm_compute. reflexivity.
  - destruct (index_error_reachable (world_of trailing_pair_doc)
                trailing_pair_doc 201) as [_ Hrun].
    + apply world_of_read.
    + vm_compute. reflexivity.
    + rewrite (Hrun conditional_line div_line 253); [done|..].
      * vm_compute. reflexivity.
      * vm_compute. reflexivity.
      * apply contains_spec. vm_compute. reflexivity.
      * unfold in_window. vm_compute. lia.
      * apply closing_pair_b_spec. vm_compute. reflexivity.
      * vm_compute. reflexivity.
      * apply before_rejects. vm_compute. reflexivity.
Defined.

(** ** The three scripts run one after the other *)

(** A script run as a process: whatever way it stops, the operator sees
    its exit status and goes on. *)
Definition run_process (m : Py unit) : Py Z :=
  fun w => let '(o, w') := m w in (Done (status o), w').

(** The order of the specification: the line-based insertion, the
    corrective pass, the whole-string rewrite. *)
Definition pipeline : Py (list Z) :=
  s1 <- run_process FixChartControls.main ;;
  s2 <- run_process FixChartFinal.main ;;
  s3 <- run_process UpdateChartControls.main ;;
  ret [s1; s2; s3].

(** ** update_chart_controls.py on a document with one block of each kind *)

Lemma substring_middle (p a b : str) : substring p (a ++ p ++ b).
Proof. by exists a, b. Qed.

Lemma substring_trans (p q s : str) :
  substring p q -> substring q s -> substring p s.
Proof.
  intros (a & b & ->) (c & d & ->). exists (c ++ a), (b ++ d).
  by rewrite <- !app_assoc.
Qed.

(** The conditional line with the opening token on the next line. *)
Definition conditional_open : str :=
  Eval vm_compute in
    py "                    {chartView === 'timeline' && (\n                       <>\n".

(** The averaging controls, ending with the original [div] line. *)
Definition controls_then_div : str := Eval vm_compute in py
"                           {/* Data Averaging Controls */}
                           <div className=\qflex items-center gap-3 border-r border-gray-600 pr-4\q>
                               <label className=\qflex items-center space-x-2 text-sm text-gray-300 cursor-pointer\q>
                                   <input 
                                       type=\qcheckbox\q 
                                       checked={averagingEnabled} 
                                       onChange={(e) => {
                                           setAveragingEnabled(e.target.checked);
                                           if (!e.target.checked) setManualBucketSize(null);
                                       }}
                                       className=\qform-checkbox h-4 w-4 bg-gray-700 border-gray-600 text-secondary focus:ring-secondary\q
                                   />
                                   <span>Data Averaging</span>
                               </label>
                               {averagingEnabled && (
                                   <select 
                                       value={manualBucketSize || 'auto'} 
                                       onChange={(e) => setManualBucketSize(e.target.value === 'auto' ? null : e.target.value)}
                                       className=\qbg-gray-700 border border-gray-600 rounded-md px-2 py-1 text-sm text-white focus:ring-secondary focus:border-secondary\q
                                   >
                                       <option value=\qauto\q>Auto (Zoom-based)</option>
                                       <option value=\qraw\q>No Averaging</option>
                                       <option value=\q5\q>5 Minutes</option>
                                       <option value=\q15\q>15 Minutes</option>
                                       <option value=\q60\q>1 Hour</option>
                                       <option value=\q240\q>4 Hours</option>
                                       <option value=\q1440\q>1 Day</option>
                                   </select>
                               )}
                           </div>
                           <div className=\qrelative\q ref={metricConfigRef}>".

(** The closing token on the line before the conditional's [)}]. *)
Definition close_then_cond : str :=
  Eval vm_compute in py "                       </>\n                    )}".

(** A document of two lines: the conditional and the [div]. *)
Definition two_line_doc : str := conditional_line ++ div_line.

(** X14.  For a document [a ++ old_section ++ m ++ old_close ++ b]
    in which the opening block occurs once and, after its replacement,
    the closing block occurs once, [update_chart_controls.py] ends with
    status 0 and writes [a ++ new_section ++ m ++ new_close ++ b]; the
    text written contains the conditional line followed by the opening
    token line, the controls block followed by the original [div] line,
    and the closing token line followed by [)}]. *)
Theorem update_inserts_fragment (w : World) (a m b : str) :
  let content :=
    a ++ UpdateChartControls.old_section ++ m ++
    UpdateChartControls.old_close ++ b in
  let written :=
    a ++ UpdateChartControls.new_section ++ m ++
    UpdateChartControls.new_close ++ b in
  fs w !! chart_path = Some content ->
  (forall a' b',
     a ++ UpdateChartControls.old_section ++ m ++
       UpdateChartControls.old_close ++ b
     = a' ++ UpdateChartControls.old_section ++ b' -> a' = a) ->
  (forall a' b',
     (a ++ UpdateChartControls.new_section ++ m) ++
       UpdateChartControls.old_close ++ b
     = a' ++ UpdateChartControls.old_close ++ b' ->
     a' = a ++ UpdateChartControls.new_section ++ m) ->
  UpdateChartControls.main w =
    (Done tt,
     mkWorld (<[chart_path := written]> (fs w))
       (stdout w ++ [UpdateChartControls.msg_section_replaced;
                     UpdateChartControls.msg_close_replaced;
                     UpdateChartControls.msg_success])) /\
  substring conditional_open written /\
  substring controls_then_div written /\
  substring close_then_cond written.
Proof.
  intros content written Hread Hsec Hclose.
  assert (replace UpdateChartControls.old_section
            UpdateChartControls.new_section content
          = (a ++ UpdateChartControls.new_section ++ m) ++
            UpdateChartControls.old_close ++ b) as E1.
  { unfold content. rewrite (replace_once _ _ a _ Hsec).
    by rewrite <- !app_assoc. }
  assert (replace UpdateChartControls.old_close UpdateChartControls.new_close
            (replace UpdateChartControls.old_section
               UpdateChartControls.new_section content) = written) as E2.
  { rewrite E1, (replace_once _ _ _ b Hclose). unfold written.
    by rewrite <- !app_assoc. }
  split.
  - rewrite (update_success w content Hread).
    + by rewrite E2.
    + apply contains_spec, substring_middle.
    + rewrite E1. apply contains_spec, substring_middle.
  - assert (substring UpdateChartControls.new_section written) as Hns
      by apply substring_middle.
    assert (substring UpdateChartControls.new_close written) as Hnc.
    { unfold written. rewrite !app_assoc, <- app_assoc.
      apply substring_middle. }
    repeat split.
    + refine (substring_trans _ _ _ _ Hns).
      apply contains_spec. vm_compute. reflexivity.
    + refine (substring_trans _ _ _ _ Hns).
      apply contains_spec. vm_compute. reflexivity.
    + refine (substring_trans _ _ _ _ Hnc).
      apply contains_spec. vm_compute. reflexivity.
Qed.

Definition scenario_middle : str :=
  Eval vm_compute in
    py "\n                           <span>Metrics</span>\n".
Definition scenario_end : str := Eval vm_compute in py ">Generate</button>\n".

Definition scenario_doc : str :=
  UpdateChartControls.old_section ++ scenario_middle ++
  UpdateChartControls.old_close ++ scenario_end.

Lemma update_inserts_fragment_witness :
  UpdateChartControls.main (world_of scenario_doc) =
    (Done tt,
     mkWorld
       (<[chart_path :=
            UpdateChartControls.new_section ++ scenario_middle ++
            UpdateChartControls.new_close ++ scenario_end]>
          (fs (world_of scenario_doc)))
       [UpdateChartControls.msg_section_replaced;
        UpdateChartControls.msg_close_replaced;
        UpdateChartControls.msg_success]).
Proof.
  refine (proj1 (update_inserts_fragment (world_of scenario_doc)
                   [] scenario_middle scenario_end _ _ _)).
  - apply world_of_read.
  - apply (single_occurrence UpdateChartControls.old_section []
             (scenario_middle ++ UpdateChartControls.old_close ++ scenario_end)).
    vm_compute. reflexivity.
  - apply (single_occurrence UpdateChartControls.old_close
             ([] ++ UpdateChartControls.new_section ++ scenario_middle)
             scenario_end).
    vm_compute. reflexivity.
Defined.

(** ** C8: a run depends on the document only *)

(** Two runs of [m] agree: same way of stopping, same chart file
    afterwards, same lines printed. *)
Definition same_run {A} (m : Py A) (w1 w2 : World) : Prop :=
  (m w1).1 = (m w2).1 /\
  fs (m w1).2 !! chart_path = fs (m w2).2 !! chart_path /\
  exists out,
    stdout (m w1).2 = stdout w1 ++ out /\
    stdout (m w2).2 = stdout w2 ++ out.

(** [m] reads nothing of the world but the chart file. *)
Definition document_only {A} (m : Py A) : Prop :=
  forall w1 w2,
    fs w1 !! chart_path = fs w2 !! chart_path -> same_run m w1 w2.

Create HintDb document_only.

Lemma document_only_ret {A} (a : A) : document_only (ret a).
Proof. intros w1 w2 H. repeat split; [done|]. exists []. by rewrite !app_nil_r. Qed.

Lemma document_only_exit {A} (c : Z) : document_only (@exit A c).
Proof. intros w1 w2 H. repeat split; [done|]. exists []. by rewrite !app_nil_r. Qed.

Lemma document_only_raise {A} (e : Exn) : document_only (@raise A e).
Proof. intros w1 w2 H. repeat split; [done|]. exists []. by rewrite !app_nil_r. Qed.

Lemma document_only_print (msg : str) : document_only (print msg).
Proof. intros w1 w2 H. repeat split; [done|]. by exists [msg]. Qed.

Lemma document_only_read_text : document_only (read_text chart_path).
Proof.
  intros w1 w2 H. unfold same_run, read_text.
  destruct (fs w1 !! chart_path) eqn:E1, (fs w2 !! chart_path) eqn:E2;
    try discriminate H; cbn [fst snd].
  - split; [congruence|]. split; [congruence|].
    exists []. by rewrite !app_nil_r.
  - split; [done|]. split; [congruence|].
    exists []. by rewrite !app_nil_r.
Qed.

Lemma document_only_write_text (text : str) :
  document_only (write_text chart_path text).
Proof.
  intros w1 w2 H. unfold same_run, write_text. cbn [fst snd fs stdout].
  split; [done|]. split; [by rewrite !lookup_insert_eq|].
  exists []. by rewrite !app_nil_r.
Qed.

Lemma document_only_index {A} (xs : list A) (i : nat) :
  document_only (index xs i).
Proof.
  unfold index. destruct (xs !! i);
    [apply document_only_ret | apply document_only_raise].
Qed.

Lemma document_only_bind {A B} (m : Py A) (k : A -> Py B) :
  document_only m -> (forall a, document_only (k a)) ->
  document_only (bind m k).
Proof.
  intros Hm Hk w1 w2 H.
  destruct (Hm w1 w2 H) as (Ho & Hfs & out & H1 & H2).
  unfold same_run, bind in *.
  destruct (m w1) as [o1 w1'], (m w2) as [o2 w2'].
  cbn [fst snd] in *. subst o2.
  destruct o1 as [a|c|e]; cbn [fst snd].
  - destruct (Hk a w1' w2' Hfs) as (Ho' & Hfs' & out' & H1' & H2').
    split; [done|]. split; [done|]. exists (out ++ out').
    by rewrite H1', H2', H1, H2, <- !app_assoc.
  - split; [done|]. split; [done|]. by exists out.
  - split; [done|]. split; [done|]. by exists out.
Qed.

Lemma document_only_if {A} (b : bool) (m1 m2 : Py A) :
  document_only m1 -> document_only m2 ->
  document_only (if b then m1 else m2).
Proof. by destruct b. Qed.

Lemma document_only_run_process (m : Py unit) :
  document_only m -> document_only (run_process m).
Proof.
  intros Hm w1 w2 H.
  destruct (Hm w1 w2 H) as (Ho & Hfs & out & H1 & H2).
  unfold same_run, run_process in *.
  destruct (m w1) as [o1 w1'], (m w2) as [o2 w2'].
  cbn [fst snd] in *. subst o2. split; [done|]. split; [done|]. by exists out.
Qed.

#[local] Hint Resolve document_only_ret document_only_exit document_only_raise
  document_only_print document_only_read_text document_only_write_text
  document_only_index document_only_bind document_only_if
  document_only_run_process : document_only.

Lemma document_only_closing_test lines i :
  document_only (FixChartControls.closing_test lines i).
Proof. unfold FixChartControls.closing_test. auto 12 with document_only. Qed.

Lemma document_only_fixup_loop idxs lines :
  document_only (FixChartControls.fixup_loop idxs lines).
Proof.
  induction idxs as [|i idxs IH]; cbn [FixChartControls.fixup_loop].
  - apply document_only_ret.
  - apply document_only_bind; [apply document_only_closing_test|].
    intros hit. apply document_only_if; [|exact IH].
    auto 8 with document_only.
Qed.

Lemma document_only_update : document_only UpdateChartControls.main.
Proof. unfold UpdateChartControls.main. auto 12 with document_only. Qed.

Lemma document_only_final : document_only FixChartFinal.main.
Proof. unfold FixChartFinal.main. auto 8 with document_only. Qed.

Lemma document_only_controls : document_only FixChartControls.main.
Proof.
  unfold FixChartControls.main.
  apply document_only_bind; [apply document_only_read_text|]. intros content.
  cbv zeta.
  apply document_only_bind.
  { destruct (FixChartControls.find_target (readlines content));
      auto with document_only. }
  intros t.
  apply document_only_bind; [apply document_only_print|]. intros _.
  apply document_only_bind; [apply document_only_index|]. intros next.
  apply document_only_bind; [auto 6 with document_only|]. intros _.
  apply document_only_bind.
  { unfold FixChartControls.insert_controls. auto 6 with document_only. }
  intros lines.
  apply document_only_bind.
  { unfold FixChartControls.fixup. apply document_only_fixup_loop. }
  intros lines'. auto 6 with document_only.
Qed.

Lemma document_only_pipeline : document_only pipeline.
Proof.
  unfold pipeline.
  pose proof document_only_update. pose proof document_only_final.
  pose proof document_only_controls.
  auto 12 with document_only.
Qed.

(** C8.  Started in two worlds whose chart file has the same text
    (whatever else they hold and whatever was printed before), each
    script stops the same way, leaves the same text in the chart file
    and prints the same lines; so does the three-script pipeline. *)
Theorem scripts_depend_on_document_only (w1 w2 : World) :
  fs w1 !! chart_path = fs w2 !! chart_path ->
  same_run UpdateChartControls.main w1 w2 /\
  same_run FixChartControls.main w1 w2 /\
  same_run FixChartFinal.main w1 w2 /\
  same_run pipeline w1 w2.
Proof.
  intros H. split; [by apply document_only_update|].
  split; [by apply document_only_controls|].
  split; [by apply document_only_final|].
  by apply document_only_pipeline.
Qed.

(** The scenario document next to another file, after earlier output. *)
Definition busy_world : World :=
  mkWorld (<["README.md"%string := small_doc]> {[chart_path := scenario_doc]})
          [filler].

Lemma scripts_depend_on_document_only_witness :
  same_run pipeline (world_of scenario_doc) busy_world.
Proof.
  apply (scripts_depend_on_document_only (world_of scenario_doc) busy_world).
  vm_compute. reflexivity.
Defined.

(** * Further properties of the scripts *)

(** ** Reading and writing lines *)

(** A line closed by its line feed, and a last line without one. *)
Definition terminated (l : str) : Prop :=
  exists body, l = body ++ [LF] /\ LF ∉ body.

Definition unterminated (l : str) : Prop := l <> [] /\ LF ∉ l.

(** Line lists as [readlines] produces them: terminated lines, then at
    most one line without terminator. *)
Definition line_shaped (lines : list str) : Prop :=
  exists ls tail,
    lines = ls ++ tail /\ Forall terminated ls /\
    (tail = [] \/ exists l, tail = [l] /\ unterminated l).

Lemma eqb_LF_true c : Ascii.eqb c LF = true -> c = LF.
Proof. apply Ascii.eqb_eq. Qed.

Lemma eqb_LF_false c : Ascii.eqb c LF = false -> c <> LF.
Proof. apply Ascii.eqb_neq. Qed.

Lemma terminated_cons c l : c <> LF -> terminated l -> terminated (c :: l).
Proof.
  intros Hc (body & -> & Hb). exists (c :: body). split; [done|].
  intros [E|H]%elem_of_cons; [by apply Hc|by apply Hb].
Qed.

Lemma unterminated_cons c l : c <> LF -> unterminated l -> unterminated (c :: l).
Proof.
  intros Hc [_ Hl]. split; [done|].
  intros [E|H]%elem_of_cons; [by apply Hc|by apply Hl].
Qed.

Lemma readlines_shaped (s : str) : line_shaped (readlines s).
Proof.
  induction s as [|c s IH]; cbn [readlines].
  - exists [], []. repeat split; [constructor|by left].
  - destruct (Ascii.eqb c LF) eqn:Ec.
    + apply eqb_LF_true in Ec as ->.
      destruct IH as (ls & tail & E & Hls & Htail).
      exists ([LF] :: ls), tail. rewrite E. repeat split; [|done].
      constructor; [|done]. exists []. split; [done|]. apply not_elem_of_nil.
    + apply eqb_LF_false in Ec.
      destruct (readlines s) as [|l rest]; [|destruct IH as (ls & tail & E & Hls & Htail)].
      * exists [], [[c]]. repeat split; [constructor|]. right.
        exists [c]. repeat split; [done|].
        intros [E|H]%elem_of_cons; [by apply Ec|by apply not_elem_of_nil in H].
      * destruct ls as [|l0 ls].
        -- cbn [app] in E. subst tail.
           destruct Htail as [?|(l' & [= <- ->] & Hun)]; [done|].
           exists [], [c :: l]. repeat split; [constructor|]. right.
           exists (c :: l). split; [done|]. by apply unterminated_cons.
        -- injection E as <- ->. apply Forall_cons in Hls as [Hl Hls].
           exists ((c :: l) :: ls), tail. repeat split; [|done].
           constructor; [by apply terminated_cons|done].
Qed.

Lemma readlines_terminated_app l s :
  terminated l -> readlines (l ++ s) = l :: readlines s.
Proof.
  intros (body & -> & Hb). induction body as [|c body IH].
  - cbn [app readlines].
    replace (Ascii.eqb LF LF) with true by (symmetry; apply Ascii.eqb_refl).
    done.
  - apply not_elem_of_cons in Hb as [Hc Hb].
    cbn [app readlines].
    replace (Ascii.eqb c LF) with false
      by (symmetry; by apply Ascii.eqb_neq).
    cbn [app] in IH. by rewrite (IH Hb).
Qed.

Lemma readlines_unterminated l : unterminated l -> readlines l = [l].
Proof.
  intros [Hne Hl]. induction l as [|c l IH]; [done|].
  apply not_elem_of_cons in Hl as [Hc Hl]. cbn [readlines].
  replace (Ascii.eqb c LF) with false by (symmetry; by apply Ascii.eqb_neq).
  destruct l as [|d l]; [done|]. by rewrite IH.
Qed.

(** X1.  Writing back the lines that were read gives the text that was
    read: cutting a text into lines loses nothing. *)
Theorem readlines_then_writelines (s : str) : writelines (readlines s) = s.
Proof. apply writelines_readlines. Qed.

(** X2.  The lines read from a text are terminated lines (one line
    feed, at the end) followed by at most one non-empty line without
    line feed; and a line list of that shape is read back as it is from
    the text [writelines] makes of it. *)
Theorem readlines_shape_roundtrip :
  (forall s, line_shaped (readlines s)) /\
  (forall lines, line_shaped lines -> readlines (writelines lines) = lines).
Proof.
  split; [apply readlines_shaped|].
  intros lines (ls & tail & -> & Hls & Htail). unfold writelines.
  induction Hls as [|l ls Hl Hls IH].
  - cbn [app]. destruct Htail as [->|(l & -> & Hun)]; [done|].
    cbn [concat]. rewrite app_nil_r. by apply readlines_unterminated.
  - cbn [app concat]. rewrite readlines_terminated_app by done.
    by rewrite IH.
Qed.

Lemma readlines_shape_roundtrip_witness :
  readlines (writelines [conditional_line; div_line; [DQ]])
  = [conditional_line; div_line; [DQ]].
Proof.
  apply (proj2 readlines_shape_roundtrip).
  exists [conditional_line; div_line], [[DQ]]. split; [done|]. split.
  - repeat constructor.
    + exists (removelast conditional_line). split; [vm_compute; reflexivity|].
      rewrite list_elem_of_In. vm_compute. intuition discriminate.
    + exists (removelast div_line). split; [vm_compute; reflexivity|].
      rewrite list_elem_of_In. vm_compute. intuition discriminate.
  - right. exists [DQ]. split; [done|]. split; [done|].
    rewrite list_elem_of_In. vm_compute. intuition discriminate.
Defined.

(** ** The chart file is missing *)

(** X3.  When the chart file does not exist, each script stops at its
    [open] with [FileNotFoundError]: nothing is printed and no file is
    created; run in sequence, the three scripts each end with status 1
    and the world is as before. *)
Theorem missing_file_raises (w : World) :
  fs w !! chart_path = None ->
  UpdateChartControls.main w = (Raised FileNotFoundError, w) /\
  FixChartControls.main w = (Raised FileNotFoundError, w) /\
  FixChartFinal.main w = (Raised FileNotFoundError, w) /\
  pipeline w = (Done [1; 1; 1]%Z, w).
Proof.
  intros Hnone.
  assert (read_text chart_path w = (Raised FileNotFoundError, w)) as Hread
    by (unfold read_text; by rewrite Hnone).
  assert (UpdateChartControls.main w = (Raised FileNotFoundError, w)) as H1
    by (unfold UpdateChartControls.main; by rewrite (bind_raised _ _ _ _ _ Hread)).
  assert (FixChartControls.main w = (Raised FileNotFoundError, w)) as H2
    by (unfold FixChartControls.main; by rewrite (bind_raised _ _ _ _ _ Hread)).
  assert (FixChartFinal.main w = (Raised FileNotFoundError, w)) as H3
    by (unfold FixChartFinal.main; by rewrite (bind_raised _ _ _ _ _ Hread)).
  repeat split; try done.
  unfold pipeline, run_process, bind. by rewrite H2, H3, H1.
Qed.

Lemma missing_file_raises_witness :
  pipeline (mkWorld ∅ []) = (Done [1; 1; 1]%Z, mkWorld ∅ []).
Proof.
  apply (missing_file_raises (mkWorld ∅ [])). apply lookup_empty.
Defined.

(** ** What a run leaves alone *)

(** [m] changes no file other than the chart file. *)
Definition chart_file_only {A} (m : Py A) : Prop :=
  forall w p, p <> chart_path -> fs (m w).2 !! p = fs w !! p.

(** [m] changes no file at all. *)
Definition never_writes {A} (m : Py A) : Prop :=
  forall w, fs (m w).2 = fs w.

(** [m] has changed a file only if it ended normally. *)
Definition writes_at_end {A} (m : Py A) : Prop :=
  forall w, (exists a, (m w).1 = Done a) \/ fs (m w).2 = fs w.

Create HintDb never_writes.

Lemma never_writes_ret {A} (a : A) : never_writes (ret a).
Proof. done. Qed.

Lemma never_writes_exit {A} (c : Z) : never_writes (@exit A c).
Proof. done. Qed.

Lemma never_writes_raise {A} (e : Exn) : never_writes (@raise A e).
Proof. done. Qed.

Lemma never_writes_print (msg : str) : never_writes (print msg).
Proof. done. Qed.

Lemma never_writes_read_text (path : string) : never_writes (read_text path).
Proof. intros w. unfold read_text. by destruct (fs w !! path). Qed.

Lemma never_writes_index {A} (xs : list A) (i : nat) : never_writes (index xs i).
Proof. intros w. unfold index. by destruct (xs !! i). Qed.

Lemma never_writes_bind {A B} (m : Py A) (k : A -> Py B) :
  never_writes m -> (forall a, never_writes (k a)) -> never_writes (bind m k).
Proof.
  intros Hm Hk w. specialize (Hm w). unfold bind.
  destruct (m w) as [[a|c|e] w']; cbn [fst snd] in *; [|done..].
  by rewrite (Hk a w').
Qed.

Lemma never_writes_if {A} (b : bool) (m1 m2 : Py A) :
  never_writes m1 -> never_writes m2 -> never_writes (if b then m1 else m2).
Proof. by destruct b. Qed.

#[local] Hint Resolve never_writes_ret never_writes_exit never_writes_raise
  never_writes_print never_writes_read_text never_writes_index
  never_writes_bind never_writes_if : never_writes.

Lemma never_writes_closing_test lines i :
  never_writes (FixChartControls.closing_test lines i).
Proof. unfold FixChartControls.closing_test. auto 12 with never_writes. Qed.

Lemma never_writes_fixup t lines : never_writes (FixChartControls.fixup t lines).
Proof.
  unfold FixChartControls.fixup.
  generalize (FixChartControls.range (t + 50)
                (Nat.min (t + 100) (length lines - 1))).
  intros idxs. induction idxs as [|i idxs IH]; cbn [FixChartControls.fixup_loop].
  - apply never_writes_ret.
  - apply never_writes_bind; [apply never_writes_closing_test|].
    intros hit. apply never_writes_if; [|exact IH].
    auto 8 with never_writes.
Qed.

Lemma never_writes_insert_controls t lines :
  never_writes (FixChartControls.insert_controls t lines).
Proof. unfold FixChartControls.insert_controls. auto 6 with never_writes. Qed.

Lemma writes_at_end_bind {A B} (m : Py A) (k : A -> Py B) :
  never_writes m -> (forall a, writes_at_end (k a)) -> writes_at_end (bind m k).
Proof.
  intros Hm Hk w. specialize (Hm w). unfold bind.
  destruct (m w) as [[a|c|e] w']; cbn [fst snd] in *; [|by right..].
  destruct (Hk a w') as [Hd|Hfs]; [by left|right]. by rewrite Hfs.
Qed.

Lemma writes_at_end_write_print (path : string) (text msg : str) :
  writes_at_end (write_text path text ;; print msg).
Proof. intros w. left. by exists tt. Qed.

Lemma writes_at_end_update : writes_at_end UpdateChartControls.main.
Proof.
  unfold UpdateChartControls.main.
  apply writes_at_end_bind; [auto with never_writes|]. intros content.
  apply writes_at_end_bind; [auto 8 with never_writes|]. intros content1.
  apply writes_at_end_bind; [auto 8 with never_writes|]. intros content2.
  apply writes_at_end_write_print.
Qed.

Lemma writes_at_end_final : writes_at_end FixChartFinal.main.
Proof.
  unfold FixChartFinal.main.
  apply writes_at_end_bind; [auto with never_writes|]. intros content.
  apply writes_at_end_write_print.
Qed.

Lemma writes_at_end_controls : writes_at_end FixChartControls.main.
Proof.
  unfold FixChartControls.main.
  apply writes_at_end_bind; [auto with never_writes|]. intros content.
  cbv zeta.
  apply writes_at_end_bind.
  { destruct (FixChartControls.find_target (readlines content));
      auto with never_writes. }
  intros t.
  apply writes_at_end_bind; [auto with never_writes|]. intros _.
  apply writes_at_end_bind; [auto with never_writes|]. intros next.
  apply writes_at_end_bind; [auto 6 with never_writes|]. intros _.
  apply writes_at_end_bind; [apply never_writes_insert_controls|]. intros lines.
  apply writes_at_end_bind; [apply never_writes_fixup|]. intros lines'.
  apply writes_at_end_write_print.
Qed.

(** X4.  A run that does not end normally has written nothing: whether
    a script stops with [exit(1)] or with an uncaught exception, the
    file system is the one it started with.  The write is the last
    effect on files of every script. *)
Theorem abnormal_end_leaves_files (w : World) :
  ((UpdateChartControls.main w).1 <> Done tt ->
   fs (UpdateChartControls.main w).2 = fs w) /\
  ((FixChartControls.main w).1 <> Done tt ->
   fs (FixChartControls.main w).2 = fs w) /\
  ((FixChartFinal.main w).1 <> Done tt ->
   fs (FixChartFinal.main w).2 = fs w).
Proof.
  split; [|split]; intros Hnot.
  - destruct (writes_at_end_update w) as [[[] Hd]|Hfs]; [done|exact Hfs].
  - destruct (writes_at_end_controls w) as [[[] Hd]|Hfs]; [done|exact Hfs].
  - destruct (writes_at_end_final w) as [[[] Hd]|Hfs]; [done|exact Hfs].
Qed.

Lemma abnormal_end_leaves_files_witness :
  fs (FixChartControls.main (world_of trailing_pair_doc)).2
  = fs (world_of trailing_pair_doc).
Proof.
  apply (proj1 (proj2 (abnormal_end_leaves_files (world_of trailing_pair_doc)))).
  vm_compute. discriminate.
Defined.

Lemma never_writes_chart_file_only {A} (m : Py A) :
  never_writes m -> chart_file_only m.
Proof. intros H w p _. by rewrite H. Qed.

Lemma chart_file_only_write_text (text : str) :
  chart_file_only (write_text chart_path text).
Proof.
  intros w p Hp. unfold write_text. cbn [snd fs].
  by rewrite lookup_insert_ne.
Qed.

Lemma chart_file_only_bind {A B} (m : Py A) (k : A -> Py B) :
  chart_file_only m -> (forall a, chart_file_only (k a)) ->
  chart_file_only (bind m k).
Proof.
  intros Hm Hk w p Hp. specialize (Hm w p Hp). unfold bind.
  destruct (m w) as [[a|c|e] w']; cbn [fst snd] in *; [|done..].
  by rewrite (Hk a w' p Hp).
Qed.

Lemma chart_file_only_run_process (m : Py unit) :
  chart_file_only m -> chart_file_only (run_process m).
Proof.
  intros Hm w p Hp. specialize (Hm w p Hp). unfold run_process.
  by destruct (m w) as [o w'].
Qed.

Lemma chart_file_only_update : chart_file_only UpdateChartControls.main.
Proof.
  unfold UpdateChartControls.main.
  apply chart_file_only_bind;
    [apply never_writes_chart_file_only; auto with never_writes|].
  intros content.
  apply chart_file_only_bind;
    [apply never_writes_chart_file_only; auto 8 with never_writes|].
  intros content1.
  apply chart_file_only_bind;
    [apply never_writes_chart_file_only; auto 8 with never_writes|].
  intros content2.
  apply chart_file_only_bind; [apply chart_file_only_write_text|].
  intros _. apply never_writes_chart_file_only, never_writes_print.
Qed.

Lemma chart_file_only_final : chart_file_only FixChartFinal.main.
Proof.
  unfold FixChartFinal.main.
  apply chart_file_only_bind;
    [apply never_writes_chart_file_only; auto with never_writes|].
  intros content. cbv zeta.
  apply chart_file_only_bind; [apply chart_file_only_write_text|].
  intros _. apply never_writes_chart_file_only, never_writes_print.
Qed.

Lemma chart_file_only_controls : chart_file_only FixChartControls.main.
Proof.
  unfold FixChartControls.main.
  apply chart_file_only_bind;
    [apply never_writes_chart_file_only; auto with never_writes|].
  intros content. cbv zeta.
  apply chart_file_only_bind.
  { apply never_writes_chart_file_only.
    destruct (FixChartControls.find_target (readlines content));
      auto with never_writes. }
  intros t.
  apply chart_file_only_bind;
    [apply never_writes_chart_file_only; auto with never_writes|].
  intros _.
  apply chart_file_only_bind;
    [apply never_writes_chart_file_only; auto with never_writes|].
  intros next.
  apply chart_file_only_bind;
    [apply never_writes_chart_file_only; auto 6 with never_writes|].
  intros _.
  apply chart_file_only_bind;
    [apply never_writes_chart_file_only, never_writes_insert_controls|].
  intros lines.
  apply chart_file_only_bind;
    [apply never_writes_chart_file_only, never_writes_fixup|].
  intros lines'.
  apply chart_file_only_bind; [apply chart_file_only_write_text|].
  intros _. apply never_writes_chart_file_only, never_writes_print.
Qed.

(** X5.  No script, and no sequence of the three, creates, changes or
    removes any file other than [components/HistoricalChart.tsx]. *)
Theorem other_files_untouched (w : World) (p : string) :
  p <> chart_path ->
  fs (UpdateChartControls.main w).2 !! p = fs w !! p /\
  fs (FixChartControls.main w).2 !! p = fs w !! p /\
  fs (FixChartFinal.main w).2 !! p = fs w !! p /\
  fs (pipeline w).2 !! p = fs w !! p.
Proof.
  intros Hp.
  split; [by apply chart_file_only_update|].
  split; [by apply chart_file_only_controls|].
  split; [by apply chart_file_only_final|].
  revert w p Hp. change (chart_file_only pipeline). unfold pipeline.
  apply chart_file_only_bind;
    [apply chart_file_only_run_process, chart_file_only_controls|].
  intros s1.
  apply chart_file_only_bind;
    [apply chart_file_only_run_process, chart_file_only_final|].
  intros s2.
  apply chart_file_only_bind;
    [apply chart_file_only_run_process, chart_file_only_update|].
  intros s3. apply never_writes_chart_file_only, never_writes_ret.
Qed.

Lemma other_files_untouched_witness :
  fs (pipeline busy_world).2 !! "README.md"%string = Some small_doc.
Proof.
  assert ("README.md"%string <> chart_path) as Hp by discriminate.
  rewrite (proj2 (proj2 (proj2
    (other_files_untouched busy_world "README.md"%string Hp)))).
  vm_compute. reflexivity.
Defined.

(** ** The target scan on short documents *)

Lemma find_target_bounds lines i :
  FixChartControls.find_target lines = Some i -> 200 < i < length lines.
Proof.
  intros (Hi & (l & Hl & _) & _)%find_target_Some.
  split; [done|]. by apply lookup_lt_Some in Hl.
Qed.

Lemma find_target_short lines :
  length lines <= 201 -> FixChartControls.find_target lines = None.
Proof.
  intros Hlen. destruct (FixChartControls.find_target lines) as [i|] eqn:E; [|done].
  apply find_target_bounds in E. lia.
Qed.

(** X6.  A target index is always above 200 and inside the line list;
    so on a document of at most 201 lines (the empty file included)
    [fix_chart_controls.py] prints [Could not find target line], stops
    with [exit(1)] and writes nothing, whatever the lines contain. *)
Theorem short_document_has_no_target (w : World) (content : str) :
  fs w !! chart_path = Some content ->
  (forall i, FixChartControls.find_target (readlines content) = Some i ->
     200 < i < length (readlines content)) /\
  (length (readlines content) <= 201 ->
   FixChartControls.main w =
     (Exit 1, mkWorld (fs w) (stdout w ++ [FixChartControls.msg_no_target]))).
Proof.
  intros Hread. split; [intros i; apply find_target_bounds|].
  intros Hlen. apply (controls_no_target w content Hread).
  by apply find_target_short.
Qed.

Lemma short_document_has_no_target_witness :
  FixChartControls.main (world_of two_line_doc) =
    (Exit 1, mkWorld (fs (world_of two_line_doc)) [FixChartControls.msg_no_target]).
Proof.
  apply (proj2 (short_document_has_no_target (world_of two_line_doc)
                  two_line_doc (world_of_read two_line_doc))).
  vm_compute. lia.
Defined.

(** ** The shape of the line list after the insertion *)

Lemma new_lines_length target_line :
  length (FixChartControls.new_lines target_line) = 31.
Proof. reflexivity. Qed.

Lemma inserted_length t target_line lines :
  t < length lines ->
  length (inserted t target_line lines) = length lines + 30.
Proof.
  intros Ht. unfold inserted.
  rewrite !length_app, new_lines_length, length_take, length_drop. lia.
Qed.

Lemma inserted_before t target_line lines k :
  k < t -> t < length lines ->
  inserted t target_line lines !! k = lines !! k.
Proof.
  intros Hk Ht. unfold inserted.
  rewrite lookup_app_l by (rewrite length_take; lia).
  by rewrite lookup_take_lt.
Qed.

Lemma inserted_new t target_line lines k :
  k < 31 -> t < length lines ->
  inserted t target_line lines !! (t + k)
  = FixChartControls.new_lines target_line !! k.
Proof.
  intros Hk Ht. unfold inserted.
  rewrite lookup_app_r by (rewrite length_take; lia).
  rewrite length_take.
  replace (t + k - t `min` length lines) with k by lia.
  by rewrite lookup_app_l by (rewrite new_lines_length; lia).
Qed.

Lemma inserted_after t target_line lines k :
  t < k -> t < length lines ->
  inserted t target_line lines !! (k + 30) = lines !! k.
Proof.
  intros Hk Ht. unfold inserted.
  rewrite lookup_app_r by (rewrite length_take; lia).
  rewrite length_take.
  rewrite lookup_app_r by (rewrite new_lines_length; lia).
  rewrite new_lines_length, lookup_drop. f_equal. lia.
Qed.

(** X7.  Replacing the target line and inserting the 30 control lines
    after it makes the list 30 lines longer, keeps the lines before the
    target where they were, puts the rewritten target line (every [(]
    followed by a line break, the indentation and the opening token) at
    the target index, and moves every later line down by exactly 30. *)
Theorem insert_controls_shape (t : nat) (lines : list str) (target_line : str)
    (w : World) :
  lines !! t = Some target_line ->
  exists lines',
    FixChartControls.insert_controls t lines w = (Done lines', w) /\
    length lines' = length lines + 30 /\
    (forall k, k < t -> lines' !! k = lines !! k) /\
    lines' !! t =
      Some (replace (py "(")
              (py "(\n" ++ FixChartControls.indent ++ py "<>") target_line) /\
    (forall k, 1 <= k <= 30 ->
       lines' !! (t + k) = FixChartControls.new_lines [] !! k) /\
    (forall k, t < k -> lines' !! (k + 30) = lines !! k).
Proof.
  intros Ht. pose proof (lookup_lt_Some _ _ _ Ht) as Hlt.
  exists (inserted t target_line lines).
  split; [by apply insert_controls_run|].
  split; [by apply inserted_length|].
  split; [intros k Hk; by apply inserted_before|].
  split.
  { rewrite <- (Nat.add_0_r t) at 1. by rewrite inserted_new by lia. }
  split; [|intros k Hk; by apply inserted_after].
  intros k Hk. rewrite inserted_new by lia.
  do 31 (destruct k as [|k]; [try lia; reflexivity|]). lia.
Qed.

Lemma insert_controls_shape_witness :
  exists lines',
    FixChartControls.insert_controls 201 (sample_lines [filler])
      (world_of miss_doc) = (Done lines', world_of miss_doc) /\
    length lines' = 234 /\
    lines' !! 232 = Some div_line /\
    lines' !! 233 = Some filler.
Proof.
  destruct (insert_controls_shape 201 (sample_lines [filler]) conditional_line
              (world_of miss_doc)) as (lines' & Hrun & Hlen & _ & _ & _ & Hafter).
  - vm_compute. reflexivity.
  - exists lines'. split; [exact Hrun|]. split; [exact Hlen|]. split.
    + etrans; [exact (Hafter 202 ltac:(lia))|]. vm_compute. reflexivity.
    + etrans; [exact (Hafter 203 ltac:(lia))|]. vm_compute. reflexivity.
Defined.

(** ** Every way the fix-up can end *)

(** The first index from [lo] on that the loop test does not reject,
    if there is one among the next [n]. *)
Lemma first_unrejected lines lo n :
  (forall j, lo <= j < lo + n -> rejects_b lines j = true) \/
  exists i, lo <= i < lo + n /\ rejects_b lines i = false /\
    forall j, lo <= j < i -> rejects_b lines j = true.
Proof.
  induction n as [|n IH].
  - left. intros j Hj. lia.
  - destruct IH as [Hall|(i & Hi & Hno & Hbefore)].
    + destruct (rejects_b lines (lo + n)) eqn:E.
      * left. intros j Hj.
        destruct (decide (j = lo + n)) as [->|Hne]; [done|].
        apply Hall. lia.
      * right. exists (lo + n). split; [lia|]. split; [done|].
        intros j Hj. apply Hall. lia.
    + right. exists i. split; [lia|]. by split.
Qed.

(** An index the test does not reject carries a pair, and the line two
    below is missing or free of [chartView]. *)
Lemma unrejected_pair lines i :
  rejects_b lines i = false ->
  closing_pair lines i /\
  (lines !! (i + 2) = None \/ closing_match lines i).
Proof.
  unfold rejects_b. intros [Hp Hf]%orb_false_elim.
  apply negb_false_iff in Hp. apply closing_pair_b_spec in Hp.
  split; [done|]. unfold chartView_follows_b in Hf.
  destruct (lines !! (i + 2)) as [c|] eqn:Ec; [right|by left].
  split; [done|]. exists c. split; [done|]. by apply contains_false.
Qed.

Lemma fixup_outcomes t lines w :
  (FixChartControls.fixup t lines w = (Done lines, w) /\
   forall i, in_window t lines i ->
     closing_pair lines i -> chartView_follows lines i) \/
  (exists i b,
     in_window t lines i /\ closing_match lines i /\
     lines !! (i + 1) = Some b /\
     (forall j, t + 50 <= j < i -> ~ closing_match lines j) /\
     FixChartControls.fixup t lines w =
       (Done (<[i + 1 := FixChartControls.fragment_close ++ b]> lines),
        mkWorld (fs w) (stdout w ++ [FixChartControls.msg_updated i]))) \/
  (exists i,
     in_window t lines i /\ closing_pair lines i /\ i + 2 = length lines /\
     FixChartControls.fixup t lines w = (Raised IndexError, w)).
Proof.
  set (hi := Nat.min (t + 100) (length lines - 1)).
  destruct (first_unrejected lines (t + 50) (hi - (t + 50)))
    as [Hall|(i & Hi & Hno & Hbefore)].
  - left. assert (forall i, in_window t lines i ->
                    closing_pair lines i -> chartView_follows lines i) as Hrej.
    { intros i Hi. apply rejects_b_pair, Hall. unfold in_window in Hi.
      fold hi in Hi. lia. }
    split; [by apply fixup_miss|done].
  - assert (in_window t lines i) as Hwin
      by (unfold in_window; fold hi; lia).
    assert (forall j, t + 50 <= j < i -> ~ closing_match lines j) as Hfirst.
    { intros j Hj. by apply rejects_b_no_match, Hbefore. }
    destruct (unrejected_pair lines i Hno) as [Hp [Hnone|Hm]].
    + right. right. exists i.
      assert (i + 2 = length lines) as Hlen.
      { apply lookup_ge_None in Hnone. unfold in_window in Hwin. lia. }
      split; [done|]. split; [done|]. split; [done|].
      by apply (fixup_raises t lines i).
    + right. left. destruct Hp as (a & b & Ha & Hb & Hsa & Hsb).
      exists i, b. split; [done|]. split; [done|]. split; [done|].
      split; [done|]. by apply (fixup_hit t lines i b).
Qed.

(** X8.  The fix-up ends in one of three ways and no other: it returns
    the lines unchanged and prints nothing (no index of the window is
    accepted); or it puts the closing token line in front of exactly one
    line, the [)}] line of the first accepted pair, and prints one line;
    or it raises [IndexError] on a pair that sits on the last two lines.
    It never removes a line, never changes more than one, and never
    touches the file system. *)
Theorem fixup_ends_in_three_ways (t : nat) (lines : list str) (w : World) :
  ((FixChartControls.fixup t lines w = (Done lines, w) /\
    forall i, in_window t lines i ->
      closing_pair lines i -> chartView_follows lines i) \/
   (exists i b,
      in_window t lines i /\ closing_match lines i /\
      lines !! (i + 1) = Some b /\
      (forall j, t + 50 <= j < i -> ~ closing_match lines j) /\
      FixChartControls.fixup t lines w =
        (Done (<[i + 1 := FixChartControls.fragment_close ++ b]> lines),
         mkWorld (fs w) (stdout w ++ [FixChartControls.msg_updated i]))) \/
   (exists i,
      in_window t lines i /\ closing_pair lines i /\ i + 2 = length lines /\
      FixChartControls.fixup t lines w = (Raised IndexError, w))) /\
  (forall lines' w',
     FixChartControls.fixup t lines w = (Done lines', w') ->
     length lines' = length lines /\ fs w' = fs w /\
     (lines' = lines \/
      exists i b, lines !! i = Some b /\
        lines' = <[i := FixChartControls.fragment_close ++ b]> lines)).
Proof.
  split; [apply fixup_outcomes|].
  intros lines' w' Hrun.
  destruct (fixup_outcomes t lines w)
    as [[E _]|[(i & b & _ & _ & Hb & _ & E)|(i & _ & _ & _ & E)]];
    rewrite E in Hrun.
  - injection Hrun as <- <-. split; [done|]. split; [done|]. by left.
  - injection Hrun as <- <-. rewrite length_insert.
    split; [done|]. split; [done|]. right. by exists (i + 1), b.
  - discriminate Hrun.
Qed.

(** X9.  The fix-up can only read past the end when the line list ends
    within the window: on a list of at least [t + 102] lines it does
    not raise.  In the script this means: when the document has at
    least 72 lines more than the target index, the run ends normally or
    with [exit(1)], never with [IndexError]. *)
Theorem long_document_never_raises (w : World) (content : str) (t : nat) :
  fs w !! chart_path = Some content ->
  FixChartControls.find_target (readlines content) = Some t ->
  t + 72 <= length (readlines content) ->
  (FixChartControls.main w).1 = Done tt \/
  (FixChartControls.main w).1 = Exit 1.
Proof.
  intros Hread Ht Hlen. set (lines := readlines content) in *.
  destruct (lookup_lt_is_Some_2 lines t) as [target_line Htl]; [lia|].
  destruct (lookup_lt_is_Some_2 lines (t + 1)) as [next Hnext]; [lia|].
  destruct (contains FixChartControls.div_marker next) eqn:Hdiv.
  - left.
    rewrite (controls_inserted w content Hread t target_line next Ht Htl Hnext Hdiv).
    fold lines. set (lines' := inserted t target_line lines).
    set (w1 := mkWorld (fs w) (stdout w ++ [FixChartControls.msg_found t])).
    assert (length lines' = length lines + 30) as Hlen'
      by (apply inserted_length; lia).
    destruct (fixup_outcomes t lines' w1)
      as [[E _]|[(i & b & _ & _ & _ & _ & E)|(i & Hi & _ & Hend & _)]].
    + by rewrite (bind_done _ _ _ _ _ E).
    + by rewrite (bind_done _ _ _ _ _ E).
    + unfold in_window in Hi. lia.
  - right.
    by rewrite (controls_unexpected w content Hread t next Ht Hnext Hdiv).
Qed.

Definition long_doc : str :=
  sample_doc (replicate 68 filler ++ [div_close_line; cond_close_line]).

Lemma long_document_never_raises_witness :
  (FixChartControls.main (world_of long_doc)).1 = Done tt \/
  (FixChartControls.main (world_of long_doc)).1 = Exit 1.
Proof.
  apply (long_document_never_raises (world_of long_doc) long_doc 201).
  - apply world_of_read.
  - vm_compute. reflexivity.
  - vm_compute. lia.
Defined.

(** ** What replacement keeps and what it puts in *)

Section ReplaceKeeps.
Implicit Types old new n x y u v : str.

Lemma first_occurrence old s :
  contains old s = true ->
  exists a b, s = a ++ old ++ b /\
    forall a' b', s = a' ++ old ++ b' -> length a <= length a'.
Proof.
  induction s as [|c s IH]; rewrite contains_unfold; intros H.
  - rewrite orb_false_r in H. apply startswith_spec in H as [r Hr].
    exists [], r. split; [done|]. intros a' b' _. cbn [length]. lia.
  - destruct (startswith old (c :: s)) eqn:E.
    + apply startswith_spec in E as [r Hr].
      exists [], r. split; [done|]. intros a' b' _. cbn [length]. lia.
    + cbn [orb] in H. destruct (IH H) as (a & b & -> & Hmin).
      exists (c :: a), b. split; [done|].
      intros [|c' a'] b' E'.
      * assert (startswith old (c :: a ++ old ++ b) = true) as Hs
          by (apply startswith_spec; by exists b').
        by rewrite Hs in E.
      * injection E' as <- E'. cbn [length].
        specialize (Hmin a' b' E'). lia.
Qed.

(** After a replacement of a block that was there, the new block is
    there. *)
Lemma replace_puts_new old new s :
  substring old s -> substring new (replace old new s).
Proof.
  intros H%contains_spec. destruct old as [|o old].
  - cbn [replace]. by exists [], (flat_map (fun c => c :: new) s).
  - destruct (first_occurrence _ _ H) as (a & b & -> & Hmin).
    rewrite replace_first by done. apply substring_middle.
Qed.

Lemma startswith_shorter old x r :
  startswith old (x ++ r) = true -> length old <= length x ->
  startswith old x = true.
Proof.
  revert x. induction old as [|o old IH]; intros [|c x]; cbn; try done; try lia.
  rewrite !andb_true_iff. intros [-> H] Hlen. split; [done|].
  apply IH; [done|lia].
Qed.

Lemma startswith_longer old x r :
  startswith old x = true -> startswith old (x ++ r) = true.
Proof.
  intros [r' ->]%startswith_spec. rewrite <- app_assoc. apply startswith_app.
Qed.

(** One of two texts is the beginning of the other. *)
Definition compatible u v : bool := startswith u v || startswith v u.

Lemma app_eq_compatible u v y z : u ++ y = v ++ z -> compatible u v = true.
Proof.
  unfold compatible. revert v. induction u as [|a u IH]; intros [|b v] E;
    try done.
  injection E as -> E. cbn [startswith].
  rewrite !Ascii.eqb_refl. cbn [andb]. by apply IH.
Qed.

(** Every occurrence of [old], in any text around [n], lies before [n]
    or after it. *)
Definition apart old n : Prop :=
  forall x y a' b', x ++ n ++ y = a' ++ old ++ b' ->
    length a' + length old <= length x \/ length x + length n <= length a'.

Definition apart_b old n : bool :=
  forallb (fun d => negb (compatible (drop d n) old)) (seq 0 (length n)) &&
  forallb (fun d => negb (compatible (drop d old) n)) (seq 1 (length old - 1)).

Lemma apart_b_sound old n : apart_b old n = true -> apart old n.
Proof.
  unfold apart_b. rewrite andb_true_iff, !forallb_forall.
  intros [Hin Hbefore] x y a' b' E.
  destruct (decide (length a' + length old <= length x)) as [?|H1]; [by left|].
  destruct (decide (length x + length n <= length a')) as [?|H2]; [by right|].
  exfalso. destruct (decide (length x <= length a')) as [Hge|Hlt].
  - set (d := length a' - length x).
    assert (compatible (drop d n) old = true) as Hc.
    { apply (app_eq_compatible _ _ y b').
      apply (f_equal (drop (length a'))) in E.
      rewrite drop_app_length in E. rewrite <- E.
      replace (length a') with (length x + d) by (unfold d; lia).
      rewrite drop_app_add. rewrite drop_app_le by lia. done. }
    specialize (Hin d). rewrite Hc in Hin. cbn in Hin.
    discriminate Hin. apply in_seq. unfold d. lia.
  - set (d := length x - length a').
    assert (compatible (drop d old) n = true) as Hc.
    { apply (app_eq_compatible _ _ b' y).
      apply (f_equal (drop (length x))) in E.
      rewrite drop_app_length in E. rewrite E.
      replace (length x) with (length a' + d) by (unfold d; lia).
      rewrite drop_app_add. rewrite drop_app_le by lia. done. }
    specialize (Hbefore d). rewrite Hc in Hbefore. cbn in Hbefore.
    discriminate Hbefore. apply in_seq. unfold d. lia.
Qed.

Lemma replace_scan_through old new n1 n2 y :
  old <> [] -> apart old (n1 ++ n2) ->
  replace_scan old new 0 (n2 ++ y) = n2 ++ replace_scan old new 0 y.
Proof.
  intros Hne. revert n1. induction n2 as [|c n2 IH]; intros n1 Hap; [done|].
  change ((c :: n2) ++ y) with (c :: (n2 ++ y)).
  rewrite replace_scan_miss.
  - cbn [app]. f_equal. apply (IH (n1 ++ [c])). by rewrite <- app_assoc.
  - destruct (startswith old (c :: n2 ++ y)) eqn:E; [|done].
    apply startswith_spec in E as [r Hr].
    destruct (Hap [] y n1 r) as [H|H].
    + cbn [app]. rewrite <- app_assoc. cbn [app]. by rewrite Hr.
    + destruct old; [done|]. cbn [length] in H. lia.
    + rewrite length_app in H. cbn [length] in H. lia.
Qed.

Lemma replace_scan_apart old new n :
  old <> [] -> n <> [] -> apart old n ->
  forall x k y, k <= length x ->
    replace_scan old new k (x ++ n ++ y) =
    replace_scan old new k x ++ n ++ replace_scan old new 0 y.
Proof.
  intros Hne Hn Hap. induction x as [|c x IH]; intros k y Hk.
  - cbn [length] in Hk. replace k with 0 by lia. cbn [app replace_scan].
    apply (replace_scan_through old new [] n y Hne Hap).
  - change ((c :: x) ++ n ++ y) with (c :: (x ++ n ++ y)).
    destruct k as [|k]; cbn [replace_scan].
    + destruct (startswith old (c :: x ++ n ++ y)) eqn:E.
      * assert (length old <= length (c :: x)) as Hlen.
        { apply startswith_spec in E as [r Hr].
          destruct (Hap (c :: x) y [] r Hr) as [H|H]; [done|].
          destruct n; [done|]. cbn [length] in H. lia. }
        rewrite (startswith_shorter old (c :: x) (n ++ y) E Hlen).
        rewrite <- app_assoc. f_equal. apply IH.
        cbn [length] in Hlen. lia.
      * assert (startswith old (c :: x) = false) as ->.
        { destruct (startswith old (c :: x)) eqn:E'; [|done].
          apply (startswith_longer _ _ (n ++ y)) in E'.
          cbn [app] in E'. by rewrite E' in E. }
        cbn [app]. f_equal. apply IH. lia.
    + apply IH. cbn [length] in Hk. lia.
Qed.

(** A block that no occurrence of [old] can overlap survives the
    replacement of [old]. *)
Lemma replace_keeps_apart old new n s :
  old <> [] -> n <> [] -> apart old n ->
  substring n s -> substring n (replace old new s).
Proof.
  intros Hne Hn Hap (x & y & ->). destruct old as [|o old]; [done|].
  cbn [replace]. rewrite replace_scan_apart by (done || lia).
  apply substring_middle.
Qed.
End ReplaceKeeps.

(** ** update_chart_controls.py: when it succeeds and what it leaves *)

Lemma old_close_apart_new_section :
  apart UpdateChartControls.old_close UpdateChartControls.new_section.
Proof. apply apart_b_sound. vm_compute. reflexivity. Qed.

(** X10.  [update_chart_controls.py] ends normally exactly when the
    opening block is in the document and the closing block is in the
    text obtained by replacing the opening block; and whenever it ends
    normally, however many times the blocks occur, the text it has
    written to the chart file contains both the new opening block
    (conditional, opening token, controls, original [div]) and the new
    closing block (closing token before [)}]). *)
Theorem update_success_postcondition (w : World) (content : str) :
  fs w !! chart_path = Some content ->
  ((UpdateChartControls.main w).1 = Done tt <->
   substring UpdateChartControls.old_section content /\
   substring UpdateChartControls.old_close
     (replace UpdateChartControls.old_section
        UpdateChartControls.new_section content)) /\
  ((UpdateChartControls.main w).1 = Done tt ->
   exists written,
     fs (UpdateChartControls.main w).2 !! chart_path = Some written /\
     substring UpdateChartControls.new_section written /\
     substring UpdateChartControls.new_close written).
Proof.
  intros Hread.
  destruct (contains UpdateChartControls.old_section content) eqn:E1.
  - destruct (contains UpdateChartControls.old_close
                (replace UpdateChartControls.old_section
                   UpdateChartControls.new_section content)) eqn:E2.
    + rewrite (update_success w content Hread E1 E2). cbn [fst snd fs].
      apply contains_spec in E1, E2. split; [done|]. intros _.
      eexists. split; [apply lookup_insert_eq|]. split.
      * apply replace_keeps_apart; [done|done|apply old_close_apart_new_section|].
        by apply replace_puts_new.
      * by apply replace_puts_new.
    + rewrite (update_close_absent w content Hread E1 E2). cbn [fst].
      apply contains_false in E2. split; [|done].
      split; [done|]. by intros [_ ?].
  - rewrite (update_section_absent w content Hread E1). cbn [fst].
    apply contains_false in E1. split; [|done].
    split; [done|]. by intros [? _].
Qed.

(** The opening block twice, the closing block twice. *)
Definition repeated_doc : str :=
  UpdateChartControls.old_section ++ scenario_middle ++
  UpdateChartControls.old_close ++ scenario_end ++
  UpdateChartControls.old_section ++ scenario_middle ++
  UpdateChartControls.old_close ++ scenario_end.

Lemma update_success_postcondition_witness :
  exists written,
    fs (UpdateChartControls.main (world_of repeated_doc)).2 !! chart_path
      = Some written /\
    substring UpdateChartControls.new_section written /\
    substring UpdateChartControls.new_close written.
Proof.
  destruct (update_success_postcondition (world_of repeated_doc) repeated_doc
              (world_of_read repeated_doc)) as [Hiff Hpost].
  apply Hpost, Hiff. split.
  - apply contains_spec. vm_compute. reflexivity.
  - apply contains_spec. vm_compute. reflexivity.
Defined.

(** ** fix_chart_controls.py: what a normal end has written *)

Lemma writelines_prefixed_line (lines : list str) (k : nat) (f b : str) :
  lines !! k = Some b ->
  writelines (<[k := f ++ b]> lines) =
    writelines (take k lines) ++ f ++ writelines (drop k lines).
Proof.
  intros Hb. pose proof (lookup_lt_Some _ _ _ Hb) as Hlt.
  rewrite insert_take_drop by done. unfold writelines.
  rewrite concat_app, concat_cons, <- app_assoc. do 2 f_equal.
  rewrite <- (take_drop_middle lines k b Hb) at 2.
  rewrite drop_app_length'; [done|]. rewrite length_take. lia.
Qed.

Lemma writelines_app (l1 l2 : list str) :
  writelines (l1 ++ l2) = writelines l1 ++ writelines l2.
Proof. apply concat_app. Qed.

(** The text of the document, cut at the target line. *)
Lemma content_around_target (content target_line : str) (t : nat) :
  readlines content !! t = Some target_line ->
  content =
    writelines (take t (readlines content)) ++ target_line ++
    writelines (drop (S t) (readlines content)).
Proof.
  intros Ht. rewrite <- (writelines_readlines content) at 1.
  rewrite <- (take_drop_middle _ _ _ Ht) at 1.
  rewrite writelines_app. unfold writelines at 2. by rewrite concat_cons.
Qed.

(** X11.  Whenever [fix_chart_controls.py] ends normally, the text it
    has written is the text it read with the target line replaced by
    the rewritten target line and the 30 control lines, and with at
    most one closing token line inserted further down, at a line
    boundary at least 19 lines below the target; everything else is
    kept, in order. *)
Theorem controls_success_postcondition (w : World) (content : str) :
  fs w !! chart_path = Some content ->
  (FixChartControls.main w).1 = Done tt ->
  exists t target_line after1 after2 token,
    FixChartControls.find_target (readlines content) = Some t /\
    readlines content !! t = Some target_line /\
    content =
      writelines (take t (readlines content)) ++ target_line ++
      writelines after1 ++ writelines after2 /\
    drop (S t) (readlines content) = after1 ++ after2 /\
    (token = [] \/
     token = FixChartControls.fragment_close /\ 19 <= length after1) /\
    fs (FixChartControls.main w).2 !! chart_path =
      Some (writelines (take t (readlines content)) ++
            writelines (FixChartControls.new_lines target_line) ++
            writelines after1 ++ token ++ writelines after2).
Proof.
  intros Hread Hdone. set (lines := readlines content) in *.
  destruct (FixChartControls.find_target lines) as [t|] eqn:Ht.
  2:{ by rewrite (controls_no_target w content Hread Ht) in Hdone. }
  destruct (lines !! (t + 1)) as [next|] eqn:Hnext.
  2:{ by rewrite (controls_next_missing w content Hread t Ht Hnext) in Hdone. }
  destruct (contains FixChartControls.div_marker next) eqn:Hdiv.
  2:{ by rewrite (controls_unexpected w content Hread t next Ht Hnext Hdiv)
        in Hdone. }
  pose proof (find_target_bounds _ _ Ht) as [_ Hlt].
  destruct (lookup_lt_is_Some_2 lines t Hlt) as [target_line Htl].
  pose proof (controls_inserted w content Hread t target_line next Ht Htl
                Hnext Hdiv) as Hrun.
  fold lines in Hrun. set (lines' := inserted t target_line lines) in *.
  set (w1 := mkWorld (fs w) (stdout w ++ [FixChartControls.msg_found t])) in *.
  set (rest := drop (S t) lines).
  assert (lines' = (take t lines ++ FixChartControls.new_lines target_line) ++ rest)
    as Hsplit by (unfold lines', inserted; by rewrite <- app_assoc).
  assert (length (take t lines ++ FixChartControls.new_lines target_line) = t + 31)
    as Hhead by (rewrite length_app, length_take, new_lines_length; lia).
  exists t, target_line.
  destruct (fixup_outcomes t lines' w1)
    as [[E _]|[(i & b & Hi & _ & Hb & _ & E)|(i & _ & _ & _ & E)]].
  - exists rest, [], []. split; [done|]. split; [done|].
    split. { change (writelines []) with (@nil ascii). rewrite app_nil_r.
             by apply content_around_target. }
    split; [by rewrite app_nil_r|]. split; [by left|].
    rewrite Hrun, (bind_done _ _ _ _ _ E). cbn [bind write_text print snd fs].
    rewrite lookup_insert_eq. f_equal. rewrite Hsplit, !writelines_app.
    change (writelines []) with (@nil ascii). cbn [app].
    by rewrite app_nil_r, <- !app_assoc.
  - set (j := i + 1 - (t + 31)).
    assert (i + 1 = (t + 31) + j) as Hij by (unfold in_window in Hi; unfold j; lia).
    exists (take j rest), (drop j rest), FixChartControls.fragment_close.
    split; [done|]. split; [done|].
    split. { rewrite <- writelines_app, take_drop.
             by apply content_around_target. }
    split; [by rewrite take_drop|].
    split.
    { right. split; [done|]. rewrite length_take.
      apply lookup_lt_Some in Hb. rewrite Hsplit, length_app, Hhead in Hb.
      unfold in_window in Hi. unfold j. lia. }
    rewrite Hrun, (bind_done _ _ _ _ _ E). cbn [bind write_text print snd fs].
    rewrite lookup_insert_eq. f_equal.
    rewrite (writelines_prefixed_line _ _ _ _ Hb).
    rewrite Hsplit, Hij.
    rewrite take_app_add', drop_app_add' by done.
    rewrite !writelines_app. by rewrite <- !app_assoc.
  - rewrite Hrun, (bind_raised _ _ _ _ _ E) in Hdone. discriminate Hdone.
Qed.

Lemma controls_success_postcondition_witness :
  exists t target_line after1 after2 token,
    FixChartControls.find_target (readlines skip_doc) = Some t /\
    readlines skip_doc !! t = Some target_line /\
    skip_doc =
      writelines (take t (readlines skip_doc)) ++ target_line ++
      writelines after1 ++ writelines after2 /\
    drop (S t) (readlines skip_doc) = after1 ++ after2 /\
    (token = [] \/
     token = FixChartControls.fragment_close /\ 19 <= length after1) /\
    fs (FixChartControls.main (world_of skip_doc)).2 !! chart_path =
      Some (writelines (take t (readlines skip_doc)) ++
            writelines (FixChartControls.new_lines target_line) ++
            writelines after1 ++ token ++ writelines after2).
Proof.
  apply (controls_success_postcondition (world_of skip_doc) skip_doc).
  - apply world_of_read.
  - vm_compute. reflexivity.
Defined.

(** ** Blocks that a replacement cannot bring back *)

(** When no occurrence of [p] can overlap [new], replacing [old] by
    [new] leaves no [p] in the text, provided [p] is [old] itself or
    was not in the text. *)
Lemma replace_avoids (p old new : str) :
  old <> [] -> new <> [] -> p <> [] -> apart p new ->
  forall s, p = old \/ ~ substring p s ->
    ~ substring p (replace old new s).
Proof.
  intros Hold Hnew Hp Hap s.
  assert (forall n s, length s <= n ->
            p = old \/ ~ substring p s ->
            ~ substring p (replace old new s)) as Hgen; [|by apply (Hgen (length s))].
  clear s. intros n. induction n as [|n IH]; intros s Hlen Hcase.
  { destruct s; [|cbn [length] in Hlen; lia].
    rewrite replace_absent by (destruct old; done).
    destruct Hcase as [->|Hno]; [|done].
    apply contains_false. by destruct old. }
  destruct (contains old s) eqn:E.
  - destruct (first_occurrence _ _ E) as (a & b & -> & Hmin).
    rewrite replace_first by done.
    assert (~ substring p (replace old new b)) as Hb.
    { apply IH.
      - rewrite !length_app in Hlen. destruct old; [done|].
        cbn [length] in Hlen. lia.
      - destruct Hcase as [->|Hno]; [by left|right].
        intros (x & y & ->). apply Hno.
        exists (a ++ old ++ x), y. by rewrite <- !app_assoc. }
    intros (a' & b' & E').
    destruct (Hap a (replace old new b) a' b' E') as [Hin|Hin].
    + assert (exists r, a = a' ++ p ++ r) as [r Ea].
      { exists (take (length a - length (a' ++ p)) b').
        apply (f_equal (take (length a))) in E'.
        rewrite take_app_length in E'.
        rewrite (app_assoc a' p b'), take_app_ge in E'
          by (rewrite length_app; lia).
        by rewrite <- app_assoc in E'. }
      destruct Hcase as [->|Hno].
      * specialize (Hmin a' (r ++ old ++ b)).
        rewrite Ea in Hmin at 1. rewrite <- !app_assoc in Hmin.
        specialize (Hmin eq_refl). destruct old; [done|].
        cbn [length] in Hin. lia.
      * apply Hno. rewrite Ea.
        exists a', (r ++ old ++ b). by rewrite <- !app_assoc.
    + apply Hb.
      apply (f_equal (drop (length a + length new))) in E'.
      rewrite (app_assoc a new), <- length_app, drop_app_length in E'.
      rewrite E', length_app, drop_app_le by lia.
      apply substring_middle.
  - rewrite replace_absent by done.
    destruct Hcase as [->|Hno]; [by apply contains_false|done].
Qed.

Lemma final_blocks_apart :
  apart FixChartFinal.misplaced_close_old FixChartFinal.misplaced_close_new /\
  apart FixChartFinal.misplaced_close_old FixChartFinal.final_close_new /\
  apart FixChartFinal.final_close_old FixChartFinal.final_close_new.
Proof.
  repeat split; apply apart_b_sound; vm_compute; reflexivity.
Qed.

Lemma update_blocks_apart :
  apart UpdateChartControls.old_section UpdateChartControls.new_section /\
  apart UpdateChartControls.old_section UpdateChartControls.new_close.
Proof.
  repeat split; apply apart_b_sound; vm_compute; reflexivity.
Qed.

(** ** Running a script again *)

(** X12.  [fix_chart_final.py] leaves neither of its two old blocks in
    the file it writes, on any document; so a second run replaces
    nothing and writes the same text: the script is idempotent. *)
Theorem fix_chart_final_idempotent (w : World) (content : str) :
  fs w !! chart_path = Some content ->
  exists written,
    fs (FixChartFinal.main w).2 !! chart_path = Some written /\
    ~ substring FixChartFinal.misplaced_close_old written /\
    ~ substring FixChartFinal.final_close_old written /\
    fs (FixChartFinal.main (FixChartFinal.main w).2).2
      = fs (FixChartFinal.main w).2.
Proof.
  intros Hread. destruct final_blocks_apart as (Hmm & Hmf & Hff).
  rewrite (fix_chart_final_run w content Hread). cbn [snd].
  set (content1 := replace FixChartFinal.misplaced_close_old
                     FixChartFinal.misplaced_close_new content).
  set (written := replace FixChartFinal.final_close_old
                    FixChartFinal.final_close_new content1).
  set (w1 := mkWorld (<[chart_path := written]> (fs w))
               (stdout w ++ [FixChartFinal.msg_success])).
  assert (~ substring FixChartFinal.misplaced_close_old content1) as H1.
  { apply replace_avoids; [done|done|done|exact Hmm|by left]. }
  assert (~ substring FixChartFinal.misplaced_close_old written) as H2.
  { apply replace_avoids; [done|done|done|exact Hmf|by right]. }
  assert (~ substring FixChartFinal.final_close_old written) as H3.
  { apply replace_avoids; [done|done|done|exact Hff|by left]. }
  assert (fs w1 !! chart_path = Some written) as Hread1
    by apply lookup_insert_eq.
  exists written. split; [done|]. split; [done|]. split; [done|].
  rewrite (fix_chart_final_run w1 written Hread1). cbn [snd fs].
  apply contains_false in H2, H3.
  rewrite (replace_twice_absent _ _ _ _ _ H2 H3).
  unfold w1. cbn [fs]. apply insert_insert_eq.
Qed.

Definition misplaced_doc : str :=
  FixChartFinal.misplaced_close_old ++ scenario_middle ++
  FixChartFinal.final_close_old ++ scenario_end.

Lemma fix_chart_final_idempotent_witness :
  exists written,
    fs (FixChartFinal.main (world_of misplaced_doc)).2 !! chart_path
      = Some written /\
    ~ substring FixChartFinal.misplaced_close_old written /\
    ~ substring FixChartFinal.final_close_old written /\
    fs (FixChartFinal.main (FixChartFinal.main (world_of misplaced_doc)).2).2
      = fs (FixChartFinal.main (world_of misplaced_doc)).2.
Proof.
  apply (fix_chart_final_idempotent (world_of misplaced_doc) misplaced_doc).
  apply world_of_read.
Defined.

Lemma div_start_in_new_section :
  substring UpdateChartControls.div_start UpdateChartControls.new_section.
Proof. apply contains_spec. vm_compute. reflexivity. Qed.

(** X13.  [update_chart_controls.py] cannot be applied twice: after a
    run that ended normally the file no longer contains the opening
    block, so the next run prints that the section was not found (and
    that the [div] is there), stops with [exit(1)] and leaves the file
    as the first run wrote it. *)
Theorem update_rerun_aborts (w : World) (content : str) :
  fs w !! chart_path = Some content ->
  (UpdateChartControls.main w).1 = Done tt ->
  let w1 := (UpdateChartControls.main w).2 in
  (exists written,
     fs w1 !! chart_path = Some written /\
     ~ substring UpdateChartControls.old_section written) /\
  UpdateChartControls.main w1 =
    (Exit 1,
     mkWorld (fs w1)
       (stdout w1 ++ [UpdateChartControls.msg_section_not_found;
                      UpdateChartControls.msg_div_found])).
Proof.
  intros Hread Hdone. destruct update_blocks_apart as (Hss & Hsc).
  destruct (contains UpdateChartControls.old_section content) eqn:E1.
  2:{ by rewrite (update_section_absent w content Hread E1) in Hdone. }
  destruct (contains UpdateChartControls.old_close
              (replace UpdateChartControls.old_section
                 UpdateChartControls.new_section content)) eqn:E2.
  2:{ by rewrite (update_close_absent w content Hread E1 E2) in Hdone. }
  rewrite (update_success w content Hread E1 E2). cbn [snd].
  set (content1 := replace UpdateChartControls.old_section
                     UpdateChartControls.new_section content) in *.
  set (written := replace UpdateChartControls.old_close
                    UpdateChartControls.new_close content1).
  set (w1 := mkWorld (<[chart_path := written]> (fs w)) _).
  assert (~ substring UpdateChartControls.old_section content1) as H1.
  { apply replace_avoids; [done|done|done|exact Hss|by left]. }
  assert (~ substring UpdateChartControls.old_section written) as H2.
  { apply replace_avoids; [done|done|done|exact Hsc|by right]. }
  assert (substring UpdateChartControls.new_section written) as H3.
  { apply replace_keeps_apart; [done|done|apply old_close_apart_new_section|].
    apply replace_puts_new. by apply contains_spec. }
  assert (fs w1 !! chart_path = Some written) as Hread1
    by apply lookup_insert_eq.
  split; [by exists written|].
  apply contains_false in H2.
  rewrite (update_section_absent w1 written Hread1 H2).
  assert (contains UpdateChartControls.div_start written = true) as ->; [|done].
  apply contains_spec.
  exact (substring_trans _ _ _ div_start_in_new_section H3).
Qed.

Lemma update_rerun_aborts_witness :
  (UpdateChartControls.main
     (UpdateChartControls.main (world_of scenario_doc)).2).1 = Exit 1.
Proof.
  destruct (update_rerun_aborts (world_of scenario_doc) scenario_doc)
    as [_ Hrun].
  - apply world_of_read.
  - vm_compute. reflexivity.
  - by rewrite Hrun.
Defined.

(** ** C7: the scenario run through the three scripts *)











Section ScenarioRun.
Variables (w : World) (content target_line next b : str) (t i : nat).
Let lines := readlines content.
Let lines' := inserted t target_line lines.
Let out := writelines (<[i + 1 := FixChartControls.fragment_close ++ b]> lines').

Hypothesis Hread : fs w !! chart_path = Some content.
Hypothesis Htarget : FixChartControls.find_target lines = Some t.
Hypothesis Htl : lines !! t = Some target_line.
Hypothesis Hnext : lines !! (t + 1) = Some next.
Hypothesis Hdiv : substring FixChartControls.div_marker next.
Hypothesis Hwin : in_window t lines' i.
Hypothesis Hmatch : closing_match lines' i.
Hypothesis Hb : lines' !! (i + 1) = Some b.
Hypothesis Hfirst : forall j, t + 50 <= j < i -> ~ closing_match lines' j.



Hypothesis Hno_misplaced : ~ substring FixChartFinal.misplaced_close_old out.
Hypothesis Hno_final : ~ substring FixChartFinal.final_close_old out.
Hypothesis Hno_section : ~ substring UpdateChartControls.old_section out.

End ScenarioRun.




